(** * pkg/metricsstore: the metrics store of the OSM controller

    The Go package [metricsstore] declares four Prometheus instruments and a
    private registry, registers them in [Start], removes them in [Stop] and
    serves the registry over HTTP through [Handler].

    The file is organised as follows.
    - [prometheus] and [promhttp] model the part of the Prometheus Go client
      (github.com/prometheus/client_golang) that the package calls: the
      descriptors, the instruments, the registry and the scrape handler.
      The client is a dependency of the repository and its code is not
      among the sources; the model follows what the specification says of
      counters, gauges, histograms and the registry and, where the
      specification is silent, what the client does (each place says so).
      Instruments and registries are heap objects, addressed by locations,
      because the registry and the store share the same instrument objects.
    - [metricsstore] is the embedding of metricsstore.go itself.
    - The remaining sections state and prove the properties of the store.

    Numeric idealisations: the client keeps sample values as float64 and
    counts as 64-bit words.  Here sample values are exact rationals ([Q]) and
    counts are natural numbers ([N]); the two agree as long as counts stay
    below 2^53 and the values involved are the decimal literals of the
    source. *)

From Stdlib Require Import QArith.
From stdpp Require Import base gmap strings list sorting pretty.

Close Scope Q_scope.
Local Open Scope string_scope.

(** Object addresses. *)
Abbreviation loc := positive.

(* ===================================================================== *)
(** * The Prometheus client: descriptors, instruments, registry          *)
(* ===================================================================== *)

Module prometheus.

(** ** Descriptors (desc.go) *)

(** Modelled from the spec: the identity of an instrument, which is its
    namespace, subsystem and name (spec 3), written by the client with
    underscores as in osm_k8s_api_event_count (spec 8).  [BuildFQName]
    joins namespace, subsystem and name with underscores, leaving out the
    empty parts; an empty name gives the empty string. *)
Definition BuildFQName (namespace subsystem name : string) : string :=
  if decide (name = "") then ""
  else if decide (namespace ≠ "" ∧ subsystem ≠ "") then
    namespace +:+ "_" +:+ subsystem +:+ "_" +:+ name
  else if decide (namespace ≠ "") then namespace +:+ "_" +:+ name
  else if decide (subsystem ≠ "") then subsystem +:+ "_" +:+ name
  else name.

(** The specification is silent on which names are valid; this follows
    the name rules of the client.  Every name declared in this file is
    valid. *)
Definition is_letter (c : Ascii.ascii) : bool :=
  let n := Ascii.N_of_ascii c in
  ((65 <=? n) && (n <=? 90) || (97 <=? n) && (n <=? 122) || (n =? 95))%N.

Definition is_digit (c : Ascii.ascii) : bool :=
  let n := Ascii.N_of_ascii c in ((48 <=? n) && (n <=? 57))%N.

Definition is_colon (c : Ascii.ascii) : bool := (Ascii.N_of_ascii c =? 58)%N.

(** Metric names match [a-zA-Z_:][a-zA-Z0-9_:]*. *)
Definition IsValidMetricName (s : string) : bool :=
  match String.list_ascii_of_string s with
  | [] => false
  | c :: cs =>
      (is_letter c || is_colon c)
      && forallb (λ c, is_letter c || is_digit c || is_colon c) cs
  end.

(** Label names match [a-zA-Z_][a-zA-Z0-9_]* and do not start with two
    underscores. *)
Definition checkLabelName (s : string) : bool :=
  match String.list_ascii_of_string s with
  | [] => false
  | c :: cs =>
      is_letter c && forallb (λ c, is_letter c || is_digit c) cs
      && negb (String.prefix "__" s)
  end.

(** A descriptor.  No instrument of the store has constant labels, so the
    descriptor carries the variable label names only. *)
Record Desc := mkDesc {
  fqName : string;
  help : string;
  variableLabels : list string;
  err : option string;
}.

#[export] Instance Desc_eq_dec : EqDecision Desc.
Proof. solve_decision. Defined.

Definition NewDesc (fq hlp : string) (labels : list string) : Desc :=
  {| fqName := fq; help := hlp; variableLabels := labels;
     err := if negb (IsValidMetricName fq)
            then Some "not a valid metric name"
            else if negb (forallb checkLabelName labels)
            then Some "not a valid label name"
            else if negb (bool_decide (NoDup labels))
            then Some "duplicate label names"
            else None |}.

(** The specification is silent on how identities are compared; this
    follows the client, which identifies a descriptor by a 64-bit hash of
    its fully-qualified name and constant label values, and checks label
    dimensions by a hash of the help string and the label names.  Both
    hashes are modelled by the data they hash, that is, without
    collisions. *)
Definition desc_id (d : Desc) : string := fqName d.
Definition dimHash (d : Desc) : string * list string :=
  (help d, variableLabels d).

(** ** Instruments (counter.go, gauge.go, histogram.go, vec.go) *)

Record Opts := mkOpts {
  Namespace : string; Subsystem : string; Name : string; Help : string;
}.

Definition desc_of_opts (o : Opts) (labels : list string) : Desc :=
  NewDesc (BuildFQName (Namespace o) (Subsystem o) (Name o)) (Help o) labels.

(** Modelled from the spec: the instruments of the client, whose code is
    not among the sources: a counter is a monotonically non-decreasing
    scalar, a gauge a scalar that is set, a histogram a count of
    observations per bucket boundary with a running sum, a labelled
    instrument one instrument per value of its labels (spec 3 and
    glossary).  As in the client, a counter keeps increments by one in
    [valInt] and other additions in [valBits]; its value is their sum. *)
Record Counter := mkCounter { c_desc : Desc; valInt : N; valBits : Q }.

Record Gauge := mkGauge { g_desc : Desc; g_valBits : Q }.

(** One histogram: a count per declared bucket (not cumulative), the number
    of observations and their sum. *)
Record Histogram := mkHistogram {
  upperBounds : list Q;
  h_buckets : list N;
  h_count : N;
  h_sum : Q;
}.

(** Metric vectors: one child per tuple of label values, created on first
    use. *)
Record HistogramVec := mkHistogramVec {
  hv_desc : Desc;
  hv_upperBounds : list Q;
  hv_children : gmap (list string) Histogram;
}.

Record CounterVec := mkCounterVec {
  cv_desc : Desc;
  cv_children : gmap (list string) Counter;
}.

Inductive Collector :=
| CCounter (c : Counter)
| CGauge (g : Gauge)
| CHistogramVec (hv : HistogramVec)
| CCounterVec (cv : CounterVec).

(** Every collector of this program describes itself by one descriptor. *)
Definition Describe (c : Collector) : Desc :=
  match c with
  | CCounter c => c_desc c
  | CGauge g => g_desc g
  | CHistogramVec hv => hv_desc hv
  | CCounterVec cv => cv_desc cv
  end.

(** ** The registry (registry.go) *)

Record Registry := mkRegistry {
  collectorsByID : gmap string loc;
  descIDs : gset string;
  dimHashesByName : gmap string (string * list string);
}.

(** ** The heap and the monad of the effectful code *)

Record World := mkWorld {
  heap : gmap loc Collector;
  regs : gmap loc Registry;
}.

Inductive Error :=
| InvalidDescError (msg : string)
| DuplicateDescError (name : string)
| InconsistentDimError (name : string)
| AlreadyRegisteredError (ExistingCollector NewCollector : loc)
| InvalidBucketsError
| InconsistentCardinalityError
| TypeAssertionError
| NilDereferenceError.

(** A call either returns a value or panics; both leave a heap behind. *)
Inductive result (A : Type) :=
| Ok (a : A) (w : World)
| Panic (e : Error) (w : World).
Arguments Ok {A} a w.
Arguments Panic {A} e w.

Definition M (A : Type) : Type := World → result A.

Definition ret {A} (a : A) : M A := λ w, Ok a w.
Definition bind {A B} (m : M A) (k : A → M B) : M B :=
  λ w, match m w with Ok a w' => k a w' | Panic e w' => Panic e w' end.
Definition panic {A} (e : Error) : M A := λ w, Panic e w.

Definition world_of {A} (r : result A) : World :=
  match r with Ok _ w => w | Panic _ w => w end.

#[export] Instance M_ret : MRet M := @ret.
#[export] Instance M_bind : MBind M := λ A B k m, bind m k.

(** Dereferencing a location that holds no object is a nil dereference. *)
Definition alloc (c : Collector) : M loc := λ w,
  let l := fresh (dom (heap w)) in
  Ok l {| heap := <[l := c]> (heap w); regs := regs w |}.

Definition load (l : loc) : M Collector := λ w,
  match heap w !! l with
  | Some c => Ok c w
  | None => Panic NilDereferenceError w
  end.

Definition store (l : loc) (c : Collector) : M unit := λ w,
  Ok tt {| heap := <[l := c]> (heap w); regs := regs w |}.

Definition get_heap : M (gmap loc Collector) := λ w, Ok (heap w) w.

Definition alloc_reg (r : Registry) : M loc := λ w,
  let l := fresh (dom (regs w)) in
  Ok l {| heap := heap w; regs := <[l := r]> (regs w) |}.

Definition load_reg (l : loc) : M Registry := λ w,
  match regs w !! l with
  | Some r => Ok r w
  | None => Panic NilDereferenceError w
  end.

Definition store_reg (l : loc) (r : Registry) : M unit := λ w,
  Ok tt {| heap := heap w; regs := <[l := r]> (regs w) |}.

(** ** Constructors *)

Definition NewCounter (o : Opts) : M loc :=
  alloc (CCounter {| c_desc := desc_of_opts o []; valInt := 0; valBits := 0 |}).

Definition NewGauge (o : Opts) : M loc :=
  alloc (CGauge {| g_desc := desc_of_opts o []; g_valBits := 0 |}).

(** The bucket boundaries are checked when a child histogram is created. *)
Definition NewHistogramVec (o : Opts) (buckets : list Q)
    (labelNames : list string) : M loc :=
  alloc (CHistogramVec {| hv_desc := desc_of_opts o labelNames;
                          hv_upperBounds := buckets;
                          hv_children := ∅ |}).

Definition NewCounterVec (o : Opts) (labelNames : list string) : M loc :=
  alloc (CCounterVec {| cv_desc := desc_of_opts o labelNames;
                        cv_children := ∅ |}).

Definition NewRegistry : M loc :=
  alloc_reg {| collectorsByID := ∅; descIDs := ∅; dimHashesByName := ∅ |}.

(** ** Registration *)

(** Modelled from the spec: the registry of the client, whose code is not
    among the sources: registering an identity that is already registered
    fails (spec 3 and 7).  As in the client,
    [Register] refuses a collector whose descriptor is invalid, whose
    fully-qualified name is already known with other label dimensions or
    another help string, or whose identity is already registered.
    [registry_register] is the decision on the maps of the registry, for
    the collector at [c] with descriptor [d]. *)
Definition registry_register (reg : Registry) (c : loc) (d : Desc)
    : Registry + Error :=
  match err d with
  | Some msg => inr (InvalidDescError msg)
  | None =>
    let duplicateDescErr :=
      if decide (desc_id d ∈ descIDs reg)
      then Some (DuplicateDescError (fqName d)) else None in
    let dimErr :=
      match dimHashesByName reg !! fqName d with
      | Some dh =>
          if decide (dh = dimHash d) then None
          else Some (InconsistentDimError (fqName d))
      | None => None
      end in
    match dimErr with
    | Some e => inr e
    | None =>
      match collectorsByID reg !! desc_id d with
      | Some existing => inr (AlreadyRegisteredError existing c)
      | None =>
        match duplicateDescErr with
        | Some e => inr e
        | None =>
          inl {| collectorsByID := <[desc_id d := c]> (collectorsByID reg);
                 descIDs := {[desc_id d]} ∪ descIDs reg;
                 dimHashesByName :=
                   <[fqName d := dimHash d]> (dimHashesByName reg) |}
        end
      end
    end
  end.

Definition Register (r c : loc) : M (option Error) :=
  reg ← load_reg r;
  col ← load c;
  match registry_register reg c (Describe col) with
  | inl reg' => store_reg r reg';; mret None
  | inr e => mret (Some e)
  end.

Definition MustRegister (r c : loc) : M unit :=
  e ← Register r c;
  match e with
  | Some e => panic e
  | None => mret tt
  end.

(** Modelled from the spec: removal from the registry, which returns
    whether a removal occurred (spec 4.1).
    [Unregister] reports whether a collector of that identity was
    registered.  As in the client, the dimensions known for the name are
    kept: they must stay consistent for the life of the registry. *)
Definition registry_unregister (reg : Registry) (d : Desc) : option Registry :=
  let collectorID := desc_id d in
  match collectorsByID reg !! collectorID with
  | None => None
  | Some _ =>
      Some {| collectorsByID := delete collectorID (collectorsByID reg);
              descIDs := descIDs reg ∖ {[collectorID]};
              dimHashesByName := dimHashesByName reg |}
  end.

Definition Unregister (r c : loc) : M bool :=
  reg ← load_reg r;
  col ← load c;
  match registry_unregister reg (Describe col) with
  | None => mret false
  | Some reg' => store_reg r reg';; mret true
  end.

(** ** Operations on the instruments *)

(** Modelled from the spec: incrementing a counter (spec 6 and 8), an
    operation of the client, whose code is not among the sources. *)
Definition Counter_Inc (l : loc) : M unit :=
  col ← load l;
  match col with
  | CCounter c =>
      store l (CCounter {| c_desc := c_desc c;
                           valInt := valInt c + 1;
                           valBits := valBits c |})
  | _ => panic TypeAssertionError
  end.

(** Modelled from the spec: setting a gauge (spec 6 and 8), an operation of
    the client, whose code is not among the sources. *)
Definition Gauge_Set (l : loc) (v : Q) : M unit :=
  col ← load l;
  match col with
  | CGauge g => store l (CGauge {| g_desc := g_desc g; g_valBits := v |})
  | _ => panic TypeAssertionError
  end.

Definition Gauge_Add (l : loc) (v : Q) : M unit :=
  col ← load l;
  match col with
  | CGauge g =>
      store l (CGauge {| g_desc := g_desc g;
                         g_valBits := (g_valBits g + v)%Q |})
  | _ => panic TypeAssertionError
  end.

Definition Gauge_Inc (l : loc) : M unit := Gauge_Add l 1.
Definition Gauge_Dec (l : loc) : M unit := Gauge_Add l (-1).

Definition DefBuckets : list Q :=
  [5#1000; 1#100; 25#1000; 5#100; 1#10; 25#100; 5#10; 1; 25#10; 5; 10]%Q.

Definition bucketLabel : string := "le".

Fixpoint strictly_increasing (bs : list Q) : bool :=
  match bs with
  | b :: (b' :: _) as tl => negb (Qle_bool b' b) && strictly_increasing tl
  | _ => true
  end.

(** A child histogram of a vector: the label [le] is reserved, the
    boundaries must increase strictly, and no boundary at all stands for
    the default ones. *)
Definition newHistogram (d : Desc) (buckets : list Q) (lvs : list string)
    : Histogram + Error :=
  if negb (length (variableLabels d) =? length lvs)%nat
  then inr InconsistentCardinalityError
  else if bool_decide (bucketLabel ∈ variableLabels d)
  then inr (InvalidDescError "le is not allowed as label name in histograms")
  else
    let bounds := match buckets with [] => DefBuckets | _ => buckets end in
    if strictly_increasing bounds
    then inl {| upperBounds := bounds;
                h_buckets := replicate (length bounds) 0%N;
                h_count := 0; h_sum := 0 |}
    else inr InvalidBucketsError.

(** Modelled from the spec: the partition of a labelled histogram for one
    value of its label (spec 3 and 6); in the client it is created at its
    first use.  A child of a vector is named by the vector and its label
    values. *)
Definition HistogramVec_WithLabelValues (l : loc) (lvs : list string)
    : M (loc * list string) :=
  col ← load l;
  match col with
  | CHistogramVec hv =>
      if negb (length (variableLabels (hv_desc hv)) =? length lvs)%nat
      then panic InconsistentCardinalityError
      else match hv_children hv !! lvs with
      | Some _ => mret (l, lvs)
      | None =>
          match newHistogram (hv_desc hv) (hv_upperBounds hv) lvs with
          | inl h =>
              store l (CHistogramVec {|
                hv_desc := hv_desc hv;
                hv_upperBounds := hv_upperBounds hv;
                hv_children := <[lvs := h]> (hv_children hv) |});;
              mret (l, lvs)
          | inr e => panic e
          end
      end
  | _ => panic TypeAssertionError
  end.

(** Modelled from the spec: recording an observation in a histogram
    (spec 6, 8 and glossary), an operation of the client, whose code is not
    among the sources.  The bucket of an observation is found by
    sort.SearchFloat64s on the increasing boundaries: the first index whose
    boundary is at least [x], the length when there is none. *)
Fixpoint SearchFloat64s (a : list Q) (x : Q) : nat :=
  match a with
  | [] => 0
  | b :: a' => if Qle_bool x b then 0 else S (SearchFloat64s a' x)
  end.

Definition observe (h : Histogram) (v : Q) : Histogram :=
  let bucket := SearchFloat64s (upperBounds h) v in
  {| upperBounds := upperBounds h;
     h_buckets := if decide (bucket < length (h_buckets h))
                  then alter (λ n, n + 1)%N bucket (h_buckets h)
                  else h_buckets h;
     h_count := h_count h + 1;
     h_sum := (h_sum h + v)%Q |}.

Definition Observe (o : loc * list string) (v : Q) : M unit :=
  col ← load o.1;
  match col with
  | CHistogramVec hv =>
      match hv_children hv !! o.2 with
      | Some h =>
          store o.1 (CHistogramVec {|
            hv_desc := hv_desc hv;
            hv_upperBounds := hv_upperBounds hv;
            hv_children := <[o.2 := observe h v]> (hv_children hv) |})
      | None => panic NilDereferenceError
      end
  | _ => panic TypeAssertionError
  end.

Definition CounterVec_WithLabelValues (l : loc) (lvs : list string)
    : M (loc * list string) :=
  col ← load l;
  match col with
  | CCounterVec cv =>
      if negb (length (variableLabels (cv_desc cv)) =? length lvs)%nat
      then panic InconsistentCardinalityError
      else match cv_children cv !! lvs with
      | Some _ => mret (l, lvs)
      | None =>
          store l (CCounterVec {|
            cv_desc := cv_desc cv;
            cv_children :=
              <[lvs := {| c_desc := cv_desc cv; valInt := 0; valBits := 0 |}]>
                (cv_children cv) |});;
          mret (l, lvs)
      end
  | _ => panic TypeAssertionError
  end.

Definition CounterVec_child_Inc (o : loc * list string) : M unit :=
  col ← load o.1;
  match col with
  | CCounterVec cv =>
      match cv_children cv !! o.2 with
      | Some c =>
          store o.1 (CCounterVec {|
            cv_desc := cv_desc cv;
            cv_children :=
              <[o.2 := {| c_desc := c_desc c; valInt := valInt c + 1;
                          valBits := valBits c |}]> (cv_children cv) |})
      | None => panic NilDereferenceError
      end
  | _ => panic TypeAssertionError
  end.

(** ** Gathering (the data model of a scrape) *)

Inductive MetricType := COUNTER | GAUGE | HISTOGRAM.

Record Bucket := mkBucket { CumulativeCount : N; UpperBound : Q }.

Inductive MetricValue :=
| VCounter (v : Q)
| VGauge (v : Q)
| VHistogram (SampleCount : N) (SampleSum : Q) (Buckets : list Bucket).

Record Metric := mkMetric {
  Label : list (string * string);
  Value : MetricValue;
}.

(** A metric family is what a scrape shows under one metric name: the HELP
    and TYPE lines and one group of sample lines per metric. *)
Record MetricFamily := mkMetricFamily {
  mf_Name : string;
  mf_Help : string;
  mf_Type : MetricType;
  mf_Metric : list Metric;
}.

Definition Counter_get (c : Counter) : Q :=
  (valBits c + inject_Z (Z.of_N (valInt c)))%Q.

(** Modelled from the spec: the emitted histogram shows cumulative counts
    per declared boundary (spec 8). *)
Fixpoint cumulate (cumCount : N) (bounds : list Q) (counts : list N)
    : list Bucket :=
  match bounds, counts with
  | b :: bounds', n :: counts' =>
      let cumCount' := (cumCount + n)%N in
      {| CumulativeCount := cumCount'; UpperBound := b |}
        :: cumulate cumCount' bounds' counts'
  | _, _ => []
  end.

Definition Histogram_Write (h : Histogram) : MetricValue :=
  VHistogram (h_count h) (h_sum h) (cumulate 0 (upperBounds h) (h_buckets h)).

Definition labelPairs (d : Desc) (lvs : list string) : list (string * string) :=
  zip (variableLabels d) lvs.

(** The specification does not say what a scrape shows of a labelled
    instrument that has no partition yet; this follows the client, in which
    a plain instrument collects one metric and a vector collects one metric
    per child (vec.go, Collect of the metric map ranges over the children
    created so far), hence none while it has no child. *)
Definition Collect (c : Collector) : list Metric :=
  match c with
  | CCounter c => [ {| Label := []; Value := VCounter (Counter_get c) |} ]
  | CGauge g => [ {| Label := []; Value := VGauge (g_valBits g) |} ]
  | CHistogramVec hv =>
      (λ kv, {| Label := labelPairs (hv_desc hv) kv.1;
                Value := Histogram_Write kv.2 |})
        <$> map_to_list (hv_children hv)
  | CCounterVec cv =>
      (λ kv, {| Label := labelPairs (cv_desc cv) kv.1;
                Value := VCounter (Counter_get kv.2) |})
        <$> map_to_list (cv_children cv)
  end.

Definition typeOf (c : Collector) : MetricType :=
  match c with
  | CCounter _ | CCounterVec _ => COUNTER
  | CGauge _ => GAUGE
  | CHistogramVec _ => HISTOGRAM
  end.

Fixpoint values_leb (a b : list string) : bool :=
  match a, b with
  | [], _ => true
  | _ :: _, [] => false
  | x :: a', y :: b' =>
      match String.compare x y with
      | Lt => true
      | Gt => false
      | Eq => values_leb a' b'
      end
  end.

Definition metric_le (m1 m2 : Metric) : Prop :=
  values_leb (Label m1).*2 (Label m2).*2 = true.

Definition family_le (f1 f2 : MetricFamily) : Prop :=
  String.leb (mf_Name f1) (mf_Name f2) = true.

#[export] Instance metric_le_dec : RelDecision metric_le.
Proof. intros m1 m2. unfold metric_le. apply _. Defined.

#[export] Instance family_le_dec : RelDecision family_le.
Proof. intros f1 f2. unfold family_le. apply _. Defined.

(** The family of one registered collector.  As in the client
    (registry.go, Gather and processMetric), a family is created by the
    first metric collected for its name, so that it exists only when at
    least one metric was collected. *)
Definition family_of (h : gmap loc Collector) (l : loc) : option MetricFamily :=
  match h !! l with
  | Some c =>
      match Collect c with
      | [] => None
      | ms => Some {| mf_Name := fqName (Describe c);
                      mf_Help := help (Describe c);
                      mf_Type := typeOf c;
                      mf_Metric := merge_sort metric_le ms |}
      end
  | None => None
  end.

(** Modelled from the spec: a scrape reads the current value of every
    registered instrument (spec 4.1).
    [Gather] collects every registered collector and returns the families
    sorted by name, the metrics of each family sorted by label values. *)
Definition gather (h : gmap loc Collector) (reg : Registry) : list MetricFamily :=
  merge_sort family_le
    (omap (λ kv, family_of h kv.2) (map_to_list (collectorsByID reg))).

Definition Gather (r : loc) : M (list MetricFamily) :=
  reg ← load_reg r;
  h ← get_heap;
  mret (gather h reg).

End prometheus.

(* ===================================================================== *)
(** * The Prometheus HTTP handler (promhttp)                             *)
(* ===================================================================== *)

Module promhttp.
Import prometheus.

Record Response := mkResponse {
  StatusCode : N;
  Body : list MetricFamily;
}.

(** A handler is the composition that [InstrumentMetricHandler] builds
    around the handler of a registry. *)
Inductive Handler :=
| HandlerFor (reg : loc)
| InstrumentHandlerInFlight (g : loc) (next : Handler)
| InstrumentHandlerCounter (counter : loc) (next : Handler).

(** [defer d; m]: [d] runs when [m] returns and also when it panics. *)
Definition with_defer {A} (d : M unit) (m : M A) : M A := λ w,
  match m w with
  | Ok a w' =>
      match d w' with
      | Ok _ w'' => Ok a w''
      | Panic e w'' => Panic e w''
      end
  | Panic e w' => Panic e (world_of (d w'))
  end.

Definition sanitizeCode (s : N) : string :=
  if (s =? 0)%N then "200" else pretty s.

Fixpoint ServeHTTP (h : Handler) : M Response :=
  match h with
  | HandlerFor reg =>
      mfs ← Gather reg;
      mret {| StatusCode := 200; Body := mfs |}
  | InstrumentHandlerInFlight g next =>
      Gauge_Inc g;;
      with_defer (Gauge_Dec g) (ServeHTTP next)
  | InstrumentHandlerCounter counter next =>
      rsp ← ServeHTTP next;
      child ← CounterVec_WithLabelValues counter [sanitizeCode (StatusCode rsp)];
      CounterVec_child_Inc child;;
      mret rsp
  end.

Definition requests_total_opts : Opts :=
  {| Namespace := ""; Subsystem := "";
     Name := "promhttp_metric_handler_requests_total";
     Help := "Total number of scrapes by HTTP status code." |}.

Definition requests_in_flight_opts : Opts :=
  {| Namespace := ""; Subsystem := "";
     Name := "promhttp_metric_handler_requests_in_flight";
     Help := "Current number of scrapes being served." |}.

(** When a collector of the same identity is already registered, the
    existing one is used. *)
Definition register_or_existing (reg c : loc) (is_kind : Collector → bool)
    : M loc :=
  e ← Register reg c;
  match e with
  | None => mret c
  | Some (AlreadyRegisteredError existing _) =>
      col ← load existing;
      if is_kind col then mret existing else panic TypeAssertionError
  | Some e => panic e
  end.

Definition is_CounterVec (c : Collector) : bool :=
  match c with CCounterVec _ => true | _ => false end.

Definition is_Gauge (c : Collector) : bool :=
  match c with CGauge _ => true | _ => false end.

(** Modelled from the spec: the handler updates meta-counters of its own
    usage around the inner render step (spec 4.1).  The specification
    names them request count and request duration; in the client,
    [InstrumentMetricHandler] registers a scrape counter by status code and
    a gauge of the scrapes being served, and wraps the handler with them. *)
Definition InstrumentMetricHandler (reg : loc) (handler : Handler) : M Handler :=
  cnt ← NewCounterVec requests_total_opts ["code"];
  CounterVec_WithLabelValues cnt ["200"];;
  CounterVec_WithLabelValues cnt ["500"];;
  CounterVec_WithLabelValues cnt ["503"];;
  cnt ← register_or_existing reg cnt is_CounterVec;
  gge ← NewGauge requests_in_flight_opts;
  gge ← register_or_existing reg gge is_Gauge;
  mret (InstrumentHandlerCounter cnt (InstrumentHandlerInFlight gge handler)).

End promhttp.

(* ===================================================================== *)
(** * metricsstore.go                                                    *)
(* ===================================================================== *)

Module metricsstore.
Import prometheus.

(** metricsRootNamespace is the root namespace for all the metrics
    emitted. *)
Definition metricsRootNamespace : string := "osm".

Record MetricsStore := mkMetricsStore {
  K8sAPIEventCounter : loc;
  ProxyConnectCount : loc;
  InjectorSidecarCount : loc;
  InjectorRqTime : loc;
  registry : loc;
}.

Definition K8sAPIEventCounter_opts : Opts :=
  {| Namespace := metricsRootNamespace;
     Subsystem := "k8s";
     Name := "api_event_count";
     Help := "represents the number of events received from the Kubernetes API Server" |}.

Definition ProxyConnectCount_opts : Opts :=
  {| Namespace := metricsRootNamespace;
     Subsystem := "proxy";
     Name := "connect_count";
     Help := "represents the number of proxies connected to OSM controller" |}.

Definition InjectorSidecarCount_opts : Opts :=
  {| Namespace := metricsRootNamespace;
     Subsystem := "injector";
     Name := "injector_sidecar_count";
     Help := "Counts the number of injector webhooks dealt with over time" |}.

Definition InjectorRqTime_opts : Opts :=
  {| Namespace := metricsRootNamespace;
     Subsystem := "injector";
     Name := "injector_rq_time";
     Help := "Histogram for time taken to perform sidecar injection" |}.

Definition InjectorRqTime_Buckets : list Q :=
  [1#10; 25#100; 5#10; 1; 25#10; 5; 10; 20; 40]%Q.

(** [init] builds the four instruments and the registry of the default
    store. *)
Definition init : M MetricsStore :=
  k8s ← NewCounter K8sAPIEventCounter_opts;
  proxy ← NewGauge ProxyConnectCount_opts;
  sidecar ← NewCounter InjectorSidecarCount_opts;
  rqtime ← NewHistogramVec InjectorRqTime_opts InjectorRqTime_Buckets ["success"];
  reg ← NewRegistry;
  mret {| K8sAPIEventCounter := k8s;
          ProxyConnectCount := proxy;
          InjectorSidecarCount := sidecar;
          InjectorRqTime := rqtime;
          registry := reg |}.

(** Start store *)
Definition Start (ms : MetricsStore) : M unit :=
  MustRegister (registry ms) (K8sAPIEventCounter ms);;
  MustRegister (registry ms) (ProxyConnectCount ms);;
  MustRegister (registry ms) (InjectorSidecarCount ms);;
  MustRegister (registry ms) (InjectorRqTime ms).

(** Stop store: the boolean results of [Unregister] are dropped. *)
Definition Stop (ms : MetricsStore) : M unit :=
  _ ← Unregister (registry ms) (K8sAPIEventCounter ms);
  _ ← Unregister (registry ms) (ProxyConnectCount ms);
  _ ← Unregister (registry ms) (InjectorSidecarCount ms);
  _ ← Unregister (registry ms) (InjectorRqTime ms);
  mret tt.

(** Handler return the registry *)
Definition Handler (ms : MetricsStore) : M promhttp.Handler :=
  promhttp.InstrumentMetricHandler
    (registry ms)
    (promhttp.HandlerFor (registry ms)).

(** The heap before [init] has run. *)
Definition empty_world : World := {| heap := ∅; regs := ∅ |}.

End metricsstore.

(* ===================================================================== *)
(** * Properties                                                         *)
(* ===================================================================== *)

Import prometheus promhttp metricsstore.

(** ** Definitions used in the statements *)

(** Replacing the registry object at [r]. *)
Definition set_reg (w : World) (r : loc) (reg : Registry) : World :=
  {| heap := heap w; regs := <[r := reg]> (regs w) |}.

(** The registry after a successful registration of [c], described by
    [d]. *)
Definition reg_add (reg : Registry) (c : loc) (d : Desc) : Registry :=
  {| collectorsByID := <[desc_id d := c]> (collectorsByID reg);
     descIDs := {[desc_id d]} ∪ descIDs reg;
     dimHashesByName := <[fqName d := dimHash d]> (dimHashesByName reg) |}.

(** What [registry_register] requires of the registry to accept [d]. *)
Definition accepts (reg : Registry) (d : Desc) : Prop :=
  err d = None
  ∧ (desc_id d ∉ descIDs reg)
  ∧ collectorsByID reg !! desc_id d = None
  ∧ (dimHashesByName reg !! fqName d = None
     ∨ dimHashesByName reg !! fqName d = Some (dimHash d)).

(** A computation that never touches the instruments. *)
Definition preserves_heap {A} (m : M A) : Prop :=
  ∀ w, heap (world_of (m w)) = heap w.

(** Calls of the lifecycle operations, in any order.  A panic of [Start]
    is taken as recovered: the next call runs on the heap that the panic
    left. *)
Inductive lifecycle := CallStart | CallStop.

Definition call (ms : MetricsStore) (c : lifecycle) : M unit :=
  match c with
  | CallStart => Start ms
  | CallStop => Stop ms
  end.

Fixpoint run_calls (ms : MetricsStore) (cs : list lifecycle) (w : World)
    : World :=
  match cs with
  | [] => w
  | c :: cs' => run_calls ms cs' (world_of (call ms c w))
  end.

(** The five fields of the store point to live objects. *)
Definition constructed (ms : MetricsStore) (w : World) : Prop :=
  is_Some (heap w !! K8sAPIEventCounter ms)
  ∧ is_Some (heap w !! ProxyConnectCount ms)
  ∧ is_Some (heap w !! InjectorSidecarCount ms)
  ∧ is_Some (heap w !! InjectorRqTime ms)
  ∧ is_Some (regs w !! registry ms).

(** The registry after [Unregister] of a collector described by [d]. *)
Definition reg_remove (reg : Registry) (d : Desc) : Registry :=
  default reg (registry_unregister reg d).

(** A registry with other known label dimensions. *)
Definition with_dims (reg : Registry)
    (dims : gmap string (string * list string)) : Registry :=
  {| collectorsByID := collectorsByID reg;
     descIDs := descIDs reg;
     dimHashesByName := dims |}.

(** The descriptors that [init] gives the four instruments. *)
Definition k8s_desc : Desc := desc_of_opts K8sAPIEventCounter_opts [].
Definition proxy_desc : Desc := desc_of_opts ProxyConnectCount_opts [].
Definition sidecar_desc : Desc := desc_of_opts InjectorSidecarCount_opts [].
Definition rqtime_desc : Desc := desc_of_opts InjectorRqTime_opts ["success"].

(** Every registered collector is a live object, registered under its own
    identity, whose label dimensions the registry knows. *)
Definition registry_wf (h : gmap loc Collector) (reg : Registry) : Prop :=
  ∀ id l, collectorsByID reg !! id = Some l →
    ∃ c, h !! l = Some c
         ∧ desc_id (Describe c) = id
         ∧ dimHashesByName reg !! fqName (Describe c) = Some (dimHash (Describe c)).

(** The store as [init] builds it, with any values in the instruments and
    any members in the registry: the fields point to instruments of the
    declared kind and identity, and to a well-formed registry. *)
Record store_ok (ms : MetricsStore) (w : World) : Prop := mk_store_ok {
  ok_k8s : ∃ c, heap w !! K8sAPIEventCounter ms = Some (CCounter c)
                ∧ c_desc c = k8s_desc;
  ok_proxy : ∃ g, heap w !! ProxyConnectCount ms = Some (CGauge g)
                  ∧ g_desc g = proxy_desc;
  ok_sidecar : ∃ c, heap w !! InjectorSidecarCount ms = Some (CCounter c)
                    ∧ c_desc c = sidecar_desc;
  ok_rqtime : ∃ hv, heap w !! InjectorRqTime ms = Some (CHistogramVec hv)
                    ∧ hv_desc hv = rqtime_desc
                    ∧ hv_upperBounds hv = InjectorRqTime_Buckets
                    ∧ ∀ lvs, is_Some (hv_children hv !! lvs) → length lvs = 1;
  ok_registry : ∃ reg, regs w !! registry ms = Some reg
                       ∧ registry_wf (heap w) reg;
}.

(** The four instruments are registered, each under its own name. *)
Definition started (ms : MetricsStore) (w : World) : Prop :=
  ∃ reg, regs w !! registry ms = Some reg
    ∧ collectorsByID reg !! fqName k8s_desc = Some (K8sAPIEventCounter ms)
    ∧ collectorsByID reg !! fqName proxy_desc = Some (ProxyConnectCount ms)
    ∧ collectorsByID reg !! fqName sidecar_desc = Some (InjectorSidecarCount ms)
    ∧ collectorsByID reg !! fqName rqtime_desc = Some (InjectorRqTime ms).

(** The handler that [Handler] returns: the registry handler of the store
    wrapped in the in-flight gauge and the request counter, which are live
    objects of their own. *)
Definition handler_ok (ms : MetricsStore) (h : promhttp.Handler) (w : World)
    : Prop :=
  ∃ cnt gge cv g,
    h = InstrumentHandlerCounter cnt
          (InstrumentHandlerInFlight gge (HandlerFor (registry ms)))
    ∧ heap w !! cnt = Some (CCounterVec cv)
    ∧ length (variableLabels (cv_desc cv)) = 1
    ∧ heap w !! gge = Some (CGauge g)
    ∧ gge ≠ ProxyConnectCount ms.

(** The collectors that serving a request writes to. *)
Fixpoint handler_collectors (h : promhttp.Handler) : list loc :=
  match h with
  | HandlerFor _ => []
  | InstrumentHandlerInFlight g next => g :: handler_collectors next
  | InstrumentHandlerCounter c next => c :: handler_collectors next
  end.

(** Reading a scrape: the metric names it contains, the family of a name
    and the sample of a name and label set. *)
Definition names (body : list MetricFamily) : list string := mf_Name <$> body.

Definition family (name : string) (body : list MetricFamily)
    : option MetricFamily :=
  snd <$> list_find (λ f, mf_Name f = name) body.

Definition metric (labels : list (string * string)) (f : MetricFamily)
    : option MetricValue :=
  (λ im, Value im.2) <$> list_find (λ m, Label m = labels) (mf_Metric f).

Definition sample (name : string) (labels : list (string * string))
    (body : list MetricFamily) : option MetricValue :=
  f ← family name body; metric labels f.

(** [n] increments of the K8s event counter. *)
Fixpoint Inc_times (l : loc) (n : nat) : M unit :=
  match n with
  | O => mret tt
  | S n' => Counter_Inc l;; Inc_times l n'
  end.

(** Replacing the object at [l]. *)
Definition upd (w : World) (l : loc) (c : Collector) : World :=
  {| heap := <[l := c]> (heap w); regs := regs w |}.

(** An instrument after an operation on it: same kind, same descriptor,
    same declared boundaries; the children of a histogram vector that are
    new have one value per label. *)
Inductive similar : Collector → Collector → Prop :=
| similar_Counter d n v n' v' :
    similar (CCounter (mkCounter d n v)) (CCounter (mkCounter d n' v'))
| similar_Gauge d v v' :
    similar (CGauge (mkGauge d v)) (CGauge (mkGauge d v'))
| similar_HistogramVec d bs ch ch' :
    (∀ lvs, is_Some (ch' !! lvs) →
            is_Some (ch !! lvs) ∨ length lvs = length (variableLabels d)) →
    similar (CHistogramVec (mkHistogramVec d bs ch))
            (CHistogramVec (mkHistogramVec d bs ch'))
| similar_CounterVec d ch ch' :
    similar (CCounterVec (mkCounterVec d ch)) (CCounterVec (mkCounterVec d ch')).

(** The default store and the heap that [init] leaves, then the heap after
    [Start] and the handler and heap after [Handler]: the states at which
    the statements below are exercised. *)
Definition default_ms : MetricsStore :=
  {| K8sAPIEventCounter := 1; ProxyConnectCount := 2;
     InjectorSidecarCount := 3; InjectorRqTime := 4; registry := 1 |}.

Definition w_init : World :=
  {| heap :=
       <[4%positive := CHistogramVec {| hv_desc := rqtime_desc;
                                        hv_upperBounds := InjectorRqTime_Buckets;
                                        hv_children := ∅ |}]>
       (<[3%positive := CCounter {| c_desc := sidecar_desc;
                                    valInt := 0; valBits := 0 |}]>
       (<[2%positive := CGauge {| g_desc := proxy_desc; g_valBits := 0 |}]>
       (<[1%positive := CCounter {| c_desc := k8s_desc;
                                    valInt := 0; valBits := 0 |}]> ∅)));
     regs := <[1%positive := {| collectorsByID := ∅; descIDs := ∅;
                                dimHashesByName := ∅ |}]> ∅ |}.

Definition w_started : World := world_of (Start default_ms w_init).

Definition default_handler : promhttp.Handler :=
  match Handler default_ms w_started with
  | Ok h _ => h
  | Panic _ _ => HandlerFor (registry default_ms)
  end.

Definition w_serving : World := world_of (Handler default_ms w_started).

Definition w_stopped : World := world_of (Stop default_ms w_started).

Definition handler_after_Stop : promhttp.Handler :=
  match Handler default_ms w_stopped with
  | Ok h _ => h
  | Panic _ _ => HandlerFor (registry default_ms)
  end.

Definition w_serving_after_Stop : World :=
  world_of (Handler default_ms w_stopped).

(** The heap after [init] and a registration of the proxy gauge alone. *)
Definition w_proxy_only : World :=
  world_of (MustRegister (registry default_ms) (ProxyConnectCount default_ms)
              w_init).

Definition w_serving_stopped : World := world_of (Stop default_ms w_serving).

(** The default store with values recorded before [Start]: five events
    counted and the gauge set to 7; then the heap after [Start] and the
    handler and heap after [Handler]. *)
Definition w_recorded : World :=
  world_of ((Inc_times (K8sAPIEventCounter default_ms) 5;;
             Gauge_Set (ProxyConnectCount default_ms) 7) w_init).

Definition w_recorded_started : World := world_of (Start default_ms w_recorded).

Definition handler_recorded : promhttp.Handler :=
  match Handler default_ms w_recorded_started with
  | Ok h _ => h
  | Panic _ _ => HandlerFor (registry default_ms)
  end.

Definition w_recorded_serving : World :=
  world_of (Handler default_ms w_recorded_started).

(** The default store served before it is started: the handler and heap
    after [Handler] on the heap of [init], then the heap after [Start]. *)
Definition handler_early : promhttp.Handler :=
  match Handler default_ms w_init with
  | Ok h _ => h
  | Panic _ _ => HandlerFor (registry default_ms)
  end.

Definition w_early_serving : World := world_of (Handler default_ms w_init).

Definition w_early_started : World :=
  world_of (Start default_ms w_early_serving).

(** ** The monad *)

Ltac munfold :=
  unfold mbind, M_bind, mret, M_ret, bind, ret, panic in *.

Lemma set_reg_id w r reg : regs w !! r = Some reg → set_reg w r reg = w.
Proof.
  intros H. destruct w as [h rs]. unfold set_reg. simpl in *.
  by rewrite insert_id.
Qed.

Lemma set_reg_set_reg w r reg reg' :
  set_reg (set_reg w r reg) r reg' = set_reg w r reg'.
Proof. unfold set_reg. simpl. by rewrite insert_insert_eq. Qed.

Lemma regs_set_reg w r reg : regs (set_reg w r reg) !! r = Some reg.
Proof. unfold set_reg. simpl. by rewrite lookup_insert_eq. Qed.

Lemma heap_set_reg w r reg : heap (set_reg w r reg) = heap w.
Proof. reflexivity. Qed.

Lemma preserves_heap_ret {A} (a : A) : preserves_heap (mret a).
Proof. by intros w. Qed.

Lemma preserves_heap_panic {A} e : preserves_heap (@panic A e).
Proof. by intros w. Qed.

Lemma preserves_heap_bind {A B} (m : M A) (k : A → M B) :
  preserves_heap m → (∀ a, preserves_heap (k a)) → preserves_heap (m ≫= k).
Proof.
  intros Hm Hk w. munfold. specialize (Hm w).
  destruct (m w) as [a w'|e w']; simpl in *; [|done].
  by rewrite Hk.
Qed.

Lemma preserves_heap_load_reg r : preserves_heap (load_reg r).
Proof. intros w. unfold load_reg. by destruct (regs w !! r). Qed.

Lemma preserves_heap_load l : preserves_heap (load l).
Proof. intros w. unfold load. by destruct (heap w !! l). Qed.

Lemma preserves_heap_store_reg r reg : preserves_heap (store_reg r reg).
Proof. by intros w. Qed.

Lemma preserves_heap_Register r c : preserves_heap (Register r c).
Proof.
  unfold Register.
  apply preserves_heap_bind; [apply preserves_heap_load_reg|intros reg].
  apply preserves_heap_bind; [apply preserves_heap_load|intros col].
  destruct (registry_register _ _ _).
  - apply preserves_heap_bind; [apply preserves_heap_store_reg|intros _].
    apply preserves_heap_ret.
  - apply preserves_heap_ret.
Qed.

Lemma preserves_heap_MustRegister r c : preserves_heap (MustRegister r c).
Proof.
  unfold MustRegister.
  apply preserves_heap_bind; [apply preserves_heap_Register|intros [e|]].
  - apply preserves_heap_panic.
  - apply preserves_heap_ret.
Qed.

Lemma preserves_heap_Unregister r c : preserves_heap (Unregister r c).
Proof.
  unfold Unregister.
  apply preserves_heap_bind; [apply preserves_heap_load_reg|intros reg].
  apply preserves_heap_bind; [apply preserves_heap_load|intros col].
  destruct (registry_unregister _ _).
  - apply preserves_heap_bind; [apply preserves_heap_store_reg|intros _].
    apply preserves_heap_ret.
  - apply preserves_heap_ret.
Qed.

Lemma preserves_heap_Start ms : preserves_heap (Start ms).
Proof.
  unfold Start.
  repeat (apply preserves_heap_bind; [apply preserves_heap_MustRegister|intros _]).
  apply preserves_heap_MustRegister.
Qed.

Lemma preserves_heap_Stop ms : preserves_heap (Stop ms).
Proof.
  unfold Stop.
  repeat (apply preserves_heap_bind; [apply preserves_heap_Unregister|intros _]).
  apply preserves_heap_ret.
Qed.

(** C10. [Start] and [Stop] change registry membership only: after any
    sequence of [Start] and [Stop] calls on any store, the heap of
    instrument objects, hence every value held inside the counter, the
    gauge and the histogram, is the one before the calls. *)
Theorem Start_Stop_preserve_instruments (ms : MetricsStore)
    (cs : list lifecycle) (w : World) :
  heap (run_calls ms cs w) = heap w.
Proof.
  revert w. induction cs as [|c cs IH]; intros w; simpl; [done|].
  rewrite IH. destruct c; simpl.
  - apply preserves_heap_Start.
  - apply preserves_heap_Stop.
Qed.

(** ** Registration and removal, one collector at a time *)

Lemma registry_register_accepts reg c d :
  accepts reg d → registry_register reg c d = inl (reg_add reg c d).
Proof.
  intros (He & Hd & Hc & Hdim). unfold registry_register.
  rewrite He, Hc. rewrite decide_False by done.
  destruct Hdim as [-> | ->]; [done|].
  by rewrite decide_True.
Qed.

Lemma registry_register_inl reg c d reg' :
  registry_register reg c d = inl reg' →
  accepts reg d ∧ reg' = reg_add reg c d.
Proof.
  unfold registry_register, accepts. intros H.
  destruct (err d); [done|].
  destruct (dimHashesByName reg !! fqName d) as [dh|] eqn:Hdim.
  - destruct (decide (dh = dimHash d)) as [->|]; [|done].
    destruct (collectorsByID reg !! desc_id d); [done|].
    destruct (decide (desc_id d ∈ descIDs reg)); [done|].
    inversion H. repeat split; auto.
  - destruct (collectorsByID reg !! desc_id d); [done|].
    destruct (decide (desc_id d ∈ descIDs reg)); [done|].
    inversion H. repeat split; auto.
Qed.

Lemma registry_register_existing reg c d existing :
  err d = None →
  dimHashesByName reg !! fqName d = Some (dimHash d) →
  collectorsByID reg !! desc_id d = Some existing →
  registry_register reg c d = inr (AlreadyRegisteredError existing c).
Proof.
  intros He Hdim Hc. unfold registry_register.
  rewrite He, Hdim, Hc. by rewrite decide_True.
Qed.

Lemma MustRegister_eq r c w reg col :
  regs w !! r = Some reg → heap w !! c = Some col →
  MustRegister r c w =
    match registry_register reg c (Describe col) with
    | inl reg' => Ok tt (set_reg w r reg')
    | inr e => Panic e w
    end.
Proof.
  intros Hr Hc. unfold MustRegister, Register, load_reg, load. munfold.
  rewrite Hr, Hc. by destruct (registry_register _ _ _).
Qed.

Lemma MustRegister_accepts r c w reg col :
  regs w !! r = Some reg → heap w !! c = Some col →
  accepts reg (Describe col) →
  MustRegister r c w = Ok tt (set_reg w r (reg_add reg c (Describe col))).
Proof.
  intros Hr Hc Hacc. rewrite (MustRegister_eq _ _ _ _ _ Hr Hc).
  by rewrite registry_register_accepts.
Qed.

Lemma MustRegister_Ok r c w w' :
  MustRegister r c w = Ok tt w' →
  ∃ reg col, regs w !! r = Some reg ∧ heap w !! c = Some col
    ∧ accepts reg (Describe col)
    ∧ w' = set_reg w r (reg_add reg c (Describe col)).
Proof.
  intros H. unfold MustRegister, Register, load_reg, load in H. munfold.
  destruct (regs w !! r) as [reg|] eqn:Hr; [|done].
  destruct (heap w !! c) as [col|] eqn:Hc; [|done].
  destruct (registry_register reg c (Describe col)) as [reg'|e] eqn:Hreg;
    simpl in H; [|done].
  apply registry_register_inl in Hreg as [Hacc ->].
  inversion H. eauto 10.
Qed.

Lemma Unregister_eq r c w reg col :
  regs w !! r = Some reg → heap w !! c = Some col →
  Unregister r c w =
    match registry_unregister reg (Describe col) with
    | Some reg' => Ok true (set_reg w r reg')
    | None => Ok false w
    end.
Proof.
  intros Hr Hc. unfold Unregister, load_reg, load. munfold.
  rewrite Hr, Hc. by destruct (registry_unregister _ _).
Qed.

(** The registry after [Unregister], whether or not something was
    removed. *)
Lemma Unregister_total r c w reg col :
  regs w !! r = Some reg → heap w !! c = Some col →
  ∃ b, Unregister r c w =
         Ok b (set_reg w r (default reg (registry_unregister reg (Describe col))))
       ∧ (b = false ↔ collectorsByID reg !! desc_id (Describe col) = None).
Proof.
  intros Hr Hc. rewrite (Unregister_eq _ _ _ _ _ Hr Hc).
  unfold registry_unregister.
  destruct (collectorsByID reg !! desc_id (Describe col)) eqn:Hid; simpl.
  - exists true. split; [done|]. split; done.
  - exists false. by rewrite set_reg_id.
Qed.

Lemma Unregister_Ok r c w reg col :
  regs w !! r = Some reg → heap w !! c = Some col →
  ∃ b, Unregister r c w = Ok b (set_reg w r (reg_remove reg (Describe col))).
Proof.
  intros Hr Hc. destruct (Unregister_total _ _ _ _ _ Hr Hc) as (b & H & _).
  by exists b.
Qed.

Lemma accepts_reg_add reg c d d' :
  accepts (reg_add reg c d) d' → accepts reg d' ∧ desc_id d' ≠ desc_id d.
Proof.
  unfold accepts, reg_add, desc_id. simpl. intros (He & Hd & Hc & Hdim).
  assert (fqName d' ≠ fqName d) as Hne.
  { intros Heq. apply Hd. rewrite Heq. apply elem_of_union_l, elem_of_singleton. done. }
  rewrite lookup_insert_ne in Hc by done.
  rewrite lookup_insert_ne in Hdim by done.
  repeat split; auto. intros Hin. apply Hd. by apply elem_of_union_r.
Qed.

(** ** [Start] and [Stop] on the registry *)

Section lifecycle.
Context (ms : MetricsStore) (w : World) (reg : Registry).
Context (c1 c2 c3 c4 : Collector).
Hypothesis Hreg : regs w !! registry ms = Some reg.
Hypothesis Hc1 : heap w !! K8sAPIEventCounter ms = Some c1.
Hypothesis Hc2 : heap w !! ProxyConnectCount ms = Some c2.
Hypothesis Hc3 : heap w !! InjectorSidecarCount ms = Some c3.
Hypothesis Hc4 : heap w !! InjectorRqTime ms = Some c4.

Let reg1 := reg_add reg (K8sAPIEventCounter ms) (Describe c1).
Let reg2 := reg_add reg1 (ProxyConnectCount ms) (Describe c2).
Let reg3 := reg_add reg2 (InjectorSidecarCount ms) (Describe c3).
Let reg4 := reg_add reg3 (InjectorRqTime ms) (Describe c4).

Lemma Start_spec :
  accepts reg (Describe c1) → accepts reg1 (Describe c2) →
  accepts reg2 (Describe c3) → accepts reg3 (Describe c4) →
  Start ms w = Ok tt (set_reg w (registry ms) reg4).
Proof.
  intros A1 A2 A3 A4. unfold Start. munfold.
  rewrite (MustRegister_accepts _ _ _ reg c1) by assumption.
  rewrite (MustRegister_accepts _ _ _ reg1 c2)
    by first [apply regs_set_reg | assumption].
  rewrite set_reg_set_reg.
  rewrite (MustRegister_accepts _ _ _ reg2 c3)
    by first [apply regs_set_reg | assumption].
  rewrite set_reg_set_reg.
  rewrite (MustRegister_accepts _ _ _ reg3 c4)
    by first [apply regs_set_reg | assumption].
  by rewrite set_reg_set_reg.
Qed.

Lemma Stop_spec :
  Stop ms w =
    Ok tt (set_reg w (registry ms)
             (reg_remove (reg_remove (reg_remove (reg_remove reg
                (Describe c1)) (Describe c2)) (Describe c3)) (Describe c4))).
Proof.
  unfold Stop. munfold.
  destruct (Unregister_Ok _ _ _ _ _ Hreg Hc1) as [b1 ->].
  edestruct (Unregister_Ok (registry ms) (ProxyConnectCount ms)) as [b2 ->];
    [apply regs_set_reg|exact Hc2|].
  rewrite set_reg_set_reg.
  edestruct (Unregister_Ok (registry ms) (InjectorSidecarCount ms)) as [b3 ->];
    [apply regs_set_reg|exact Hc3|].
  rewrite set_reg_set_reg.
  edestruct (Unregister_Ok (registry ms) (InjectorRqTime ms)) as [b4 ->];
    [apply regs_set_reg|exact Hc4|].
  by rewrite set_reg_set_reg.
Qed.
End lifecycle.

Lemma Start_Ok ms w w1 :
  Start ms w = Ok tt w1 →
  ∃ reg c1 c2 c3 c4,
    regs w !! registry ms = Some reg
    ∧ heap w !! K8sAPIEventCounter ms = Some c1
    ∧ heap w !! ProxyConnectCount ms = Some c2
    ∧ heap w !! InjectorSidecarCount ms = Some c3
    ∧ heap w !! InjectorRqTime ms = Some c4
    ∧ accepts reg (Describe c1)
    ∧ accepts (reg_add reg (K8sAPIEventCounter ms) (Describe c1)) (Describe c2)
    ∧ accepts (reg_add (reg_add reg (K8sAPIEventCounter ms) (Describe c1))
                 (ProxyConnectCount ms) (Describe c2)) (Describe c3)
    ∧ accepts (reg_add (reg_add (reg_add reg (K8sAPIEventCounter ms) (Describe c1))
                 (ProxyConnectCount ms) (Describe c2))
                 (InjectorSidecarCount ms) (Describe c3)) (Describe c4)
    ∧ w1 = set_reg w (registry ms)
             (reg_add (reg_add (reg_add (reg_add reg
                (K8sAPIEventCounter ms) (Describe c1))
                (ProxyConnectCount ms) (Describe c2))
                (InjectorSidecarCount ms) (Describe c3))
                (InjectorRqTime ms) (Describe c4)).
Proof.
  intros H. unfold Start in H. munfold.
  destruct (MustRegister _ (K8sAPIEventCounter ms) w) as [[] wa|] eqn:E1; [|done].
  destruct (MustRegister _ (ProxyConnectCount ms) wa) as [[] wb|] eqn:E2; [|done].
  destruct (MustRegister _ (InjectorSidecarCount ms) wb) as [[] wc|] eqn:E3; [|done].
  apply MustRegister_Ok in E1 as (reg & c1 & Hr & Hc1 & A1 & ->).
  apply MustRegister_Ok in E2 as (rega & c2 & Hra & Hc2 & A2 & ->).
  apply MustRegister_Ok in E3 as (regb & c3 & Hrb & Hc3 & A3 & ->).
  apply MustRegister_Ok in H as (regc & c4 & Hrc & Hc4 & A4 & ->).
  rewrite regs_set_reg in Hra, Hrb, Hrc.
  simplify_eq. rewrite !set_reg_set_reg.
  exists reg, c1, c2, c3, c4. split_and!; first [assumption | reflexivity].
Qed.

Lemma reg_remove_present reg d l :
  collectorsByID reg !! desc_id d = Some l →
  reg_remove reg d =
    {| collectorsByID := delete (desc_id d) (collectorsByID reg);
       descIDs := descIDs reg ∖ {[desc_id d]};
       dimHashesByName := dimHashesByName reg |}.
Proof. intros H. unfold reg_remove, registry_unregister. by rewrite H. Qed.

Lemma reg_remove_absent reg d :
  collectorsByID reg !! desc_id d = None → reg_remove reg d = reg.
Proof. intros H. unfold reg_remove, registry_unregister. by rewrite H. Qed.

(** Four collectors accepted one after the other have four different
    identities, and each of them was acceptable from the start. *)
Lemma accepts_chain reg l1 d1 l2 d2 l3 d3 d4 :
  accepts reg d1 →
  accepts (reg_add reg l1 d1) d2 →
  accepts (reg_add (reg_add reg l1 d1) l2 d2) d3 →
  accepts (reg_add (reg_add (reg_add reg l1 d1) l2 d2) l3 d3) d4 →
  (accepts reg d2 ∧ accepts reg d3 ∧ accepts reg d4)
  ∧ fqName d2 ≠ fqName d1 ∧ fqName d3 ≠ fqName d1 ∧ fqName d4 ≠ fqName d1
  ∧ fqName d3 ≠ fqName d2 ∧ fqName d4 ≠ fqName d2 ∧ fqName d4 ≠ fqName d3.
Proof.
  intros A1 A2 A3 A4.
  apply accepts_reg_add in A2 as [A2 N21].
  apply accepts_reg_add in A3 as [A3 N32].
  apply accepts_reg_add in A3 as [A3 N31].
  apply accepts_reg_add in A4 as [A4 N43].
  apply accepts_reg_add in A4 as [A4 N42].
  apply accepts_reg_add in A4 as [A4 N41].
  unfold desc_id in *. split_and!; assumption.
Qed.

(** ** Claims on the lifecycle *)

(** C2. On every store, a second [Start] without a [Stop] in between
    panics with the registry's already-registered error, raised by the
    first registration (the K8s event counter, against itself as the
    existing collector); the registry and the instruments are left as the
    first [Start] left them, nothing is registered twice. *)
Theorem Start_twice_panics (ms : MetricsStore) (w w1 : World) :
  Start ms w = Ok tt w1 →
  Start ms w1 =
    Panic (AlreadyRegisteredError (K8sAPIEventCounter ms) (K8sAPIEventCounter ms)) w1.
Proof.
  intros H.
  apply Start_Ok in H
    as (reg & c1 & c2 & c3 & c4 & Hr & H1 & H2 & H3 & H4 & A1 & A2 & A3 & A4 & ->).
  destruct (accepts_chain _ _ _ _ _ _ _ _ A1 A2 A3 A4)
    as (_ & N21 & N31 & N41 & _).
  unfold Start. munfold.
  erewrite MustRegister_eq; [|apply regs_set_reg|exact H1].
  erewrite registry_register_existing; [done|apply A1|..].
  - unfold reg_add; simpl.
    rewrite !lookup_insert_ne by done. apply lookup_insert_eq.
  - unfold reg_add, desc_id; simpl.
    rewrite !lookup_insert_ne by done. apply lookup_insert_eq.
Qed.

(** Removing a collector that is not registered reports [false] and
    changes nothing. *)
Lemma Unregister_not_registered r c w reg col :
  regs w !! r = Some reg → heap w !! c = Some col →
  collectorsByID reg !! desc_id (Describe col) = None →
  Unregister r c w = Ok false w.
Proof.
  intros Hr Hc Hid. rewrite (Unregister_eq _ _ _ _ _ Hr Hc).
  unfold registry_unregister. by rewrite Hid.
Qed.

(** C8. On every constructed store and whatever is registered at the
    time, [Stop] returns normally: it never panics and has no error to
    return, the booleans of the four removals being dropped.  The store is
    still constructed afterwards, so that a second [Stop] returns in the
    same way. *)
Theorem Stop_never_fails (ms : MetricsStore) (w : World) :
  constructed ms w →
  ∃ w1, Stop ms w = Ok tt w1 ∧ heap w1 = heap w ∧ constructed ms w1.
Proof.
  intros ([c1 H1] & [c2 H2] & [c3 H3] & [c4 H4] & [reg Hr]).
  eexists. split; [apply (Stop_spec ms w reg c1 c2 c3 c4); assumption|].
  split; [reflexivity|].
  unfold constructed. rewrite regs_set_reg. simpl.
  rewrite H1, H2, H3, H4. eauto 10.
Qed.

(** After [Start] and [Stop] the registry has the members it had before
    [Start]; only the label dimensions of the four names stay known. *)
Lemma stop_after_start reg l1 d1 l2 d2 l3 d3 l4 d4 :
  accepts reg d1 →
  accepts (reg_add reg l1 d1) d2 →
  accepts (reg_add (reg_add reg l1 d1) l2 d2) d3 →
  accepts (reg_add (reg_add (reg_add reg l1 d1) l2 d2) l3 d3) d4 →
  let reg4 := reg_add (reg_add (reg_add (reg_add reg l1 d1) l2 d2) l3 d3) l4 d4 in
  reg_remove (reg_remove (reg_remove (reg_remove reg4 d1) d2) d3) d4
  = with_dims reg (dimHashesByName reg4).
Proof.
  intros A1 A2 A3 A4 reg4.
  destruct (accepts_chain _ _ _ _ _ _ _ _ A1 A2 A3 A4)
    as ((B2 & B3 & B4) & N21 & N31 & N41 & N32 & N42 & N43).
  destruct A1 as (_ & D1 & C1 & _), B2 as (_ & D2 & C2 & _),
    B3 as (_ & D3 & C3 & _), B4 as (_ & D4 & C4 & _).
  unfold desc_id in *.
  rewrite (reg_remove_present reg4 d1 l1); last first.
  { unfold reg4, reg_add, desc_id; simpl.
    rewrite !lookup_insert_ne by done. apply lookup_insert_eq. }
  rewrite (reg_remove_present _ d2 l2); last first.
  { unfold reg4, reg_add, desc_id; simpl.
    rewrite lookup_delete_ne by done.
    rewrite !lookup_insert_ne by done. apply lookup_insert_eq. }
  rewrite (reg_remove_present _ d3 l3); last first.
  { unfold reg4, reg_add, desc_id; simpl.
    rewrite !lookup_delete_ne by done.
    rewrite !lookup_insert_ne by done. apply lookup_insert_eq. }
  rewrite (reg_remove_present _ d4 l4); last first.
  { unfold reg4, reg_add, desc_id; simpl.
    rewrite !lookup_delete_ne by done. apply lookup_insert_eq. }
  unfold with_dims, reg4, reg_add, desc_id; simpl. f_equal.
  - apply map_eq. intros i.
    rewrite !lookup_delete, !lookup_insert.
    repeat case_decide; congruence.
  - apply set_eq. intros x.
    rewrite !elem_of_difference, !elem_of_union, !elem_of_singleton.
    split; [tauto|]. intros Hx. split_and!; try tauto; congruence.
Qed.

(** A collector accepted by a registry is accepted by the registry that
    has the same members and already knows its label dimensions. *)
Lemma accepts_with_dims reg dims l d :
  accepts reg d → dims !! fqName d = Some (dimHash d) →
  accepts (with_dims reg dims) d
  ∧ reg_add (with_dims reg dims) l d = with_dims (reg_add reg l d) dims.
Proof.
  intros (He & Hd & Hc & _) Hdim. split.
  - unfold accepts, with_dims; simpl. auto.
  - unfold reg_add, with_dims; simpl. f_equal. by apply insert_id.
Qed.

(** C9. On every store, when [Start] has succeeded and [Stop] has run,
    [Start] succeeds again, and leaves the store as the first [Start]
    did. *)
Theorem Start_Stop_Start (ms : MetricsStore) (w w1 w2 : World) :
  Start ms w = Ok tt w1 →
  Stop ms w1 = Ok tt w2 →
  Start ms w2 = Ok tt w1.
Proof.
  intros HS HT.
  apply Start_Ok in HS
    as (reg & c1 & c2 & c3 & c4 & Hr & H1 & H2 & H3 & H4 & A1 & A2 & A3 & A4 & ->).
  destruct (accepts_chain _ _ _ _ _ _ _ _ A1 A2 A3 A4)
    as (_ & N21 & N31 & N41 & N32 & N42 & N43).
  erewrite Stop_spec in HT; [|apply regs_set_reg|exact H1|exact H2|exact H3|exact H4].
  inversion HT as [Hw2]. clear HT Hw2.
  rewrite set_reg_set_reg.
  rewrite stop_after_start by assumption.
  set (dims := dimHashesByName _).
  assert (dims !! fqName (Describe c1) = Some (dimHash (Describe c1))) as K1.
  { unfold dims, reg_add; simpl.
    rewrite !lookup_insert_ne by done. apply lookup_insert_eq. }
  assert (dims !! fqName (Describe c2) = Some (dimHash (Describe c2))) as K2.
  { unfold dims, reg_add; simpl.
    rewrite !lookup_insert_ne by done. apply lookup_insert_eq. }
  assert (dims !! fqName (Describe c3) = Some (dimHash (Describe c3))) as K3.
  { unfold dims, reg_add; simpl.
    rewrite !lookup_insert_ne by done. apply lookup_insert_eq. }
  assert (dims !! fqName (Describe c4) = Some (dimHash (Describe c4))) as K4.
  { unfold dims, reg_add; simpl. apply lookup_insert_eq. }
  destruct (accepts_with_dims _ dims (K8sAPIEventCounter ms) _ A1 K1) as [A1' E1].
  destruct (accepts_with_dims _ dims (ProxyConnectCount ms) _ A2 K2) as [A2' E2].
  destruct (accepts_with_dims _ dims (InjectorSidecarCount ms) _ A3 K3) as [A3' E3].
  destruct (accepts_with_dims _ dims (InjectorRqTime ms) _ A4 K4) as [A4' E4].
  erewrite (Start_spec ms _ _ c1 c2 c3 c4);
    [|apply regs_set_reg|exact H1|exact H2|exact H3|exact H4
     |exact A1'|by rewrite E1|by rewrite E1, E2|by rewrite E1, E2, E3].
  rewrite set_reg_set_reg, E1, E2, E3, E4. reflexivity.
Qed.

(** ** Reading a scrape *)

Lemma list_find_unique {A} (P : A → Prop) `{∀ x, Decision (P x)}
    (l : list A) (x : A) :
  x ∈ l → P x → (∀ y, y ∈ l → P y → y = x) →
  snd <$> list_find P l = Some x.
Proof.
  intros Hx HP Huniq.
  destruct (list_find_elem_of P l x Hx HP) as [[i y] Hfind].
  rewrite Hfind. simpl. f_equal.
  apply list_find_Some in Hfind as (Hi & HPy & _).
  apply Huniq; [|done]. by eapply list_elem_of_lookup_2.
Qed.

Lemma elem_of_gather h reg f :
  f ∈ gather h reg ↔
  ∃ id l, collectorsByID reg !! id = Some l ∧ family_of h l = Some f.
Proof.
  unfold gather. rewrite merge_sort_Permutation, list_elem_of_omap. split.
  - intros ([id l] & Hin & Hf). apply elem_of_map_to_list in Hin. eauto.
  - intros (id & l & Hin & Hf). exists (id, l). split; [|done].
    by apply elem_of_map_to_list.
Qed.

Lemma family_of_Some h l f :
  family_of h l = Some f ↔
  ∃ c, h !! l = Some c ∧ Collect c ≠ []
       ∧ f = {| mf_Name := fqName (Describe c);
                mf_Help := help (Describe c);
                mf_Type := typeOf c;
                mf_Metric := merge_sort metric_le (Collect c) |}.
Proof.
  unfold family_of. split.
  - destruct (h !! l) as [c|]; [|done].
    destruct (Collect c) as [|m ms] eqn:Hc; [done|].
    intros [= <-]. exists c. by rewrite Hc.
  - intros (c & -> & Hne & ->).
    destruct (Collect c) as [|m ms] eqn:Hc; done.
Qed.

(** Families carry the identity under which their collector is
    registered, so that a name occurs once in a scrape. *)
Lemma gather_family h reg n l c :
  registry_wf h reg →
  collectorsByID reg !! n = Some l → h !! l = Some c → Collect c ≠ [] →
  family n (gather h reg) =
    Some {| mf_Name := fqName (Describe c);
            mf_Help := help (Describe c);
            mf_Type := typeOf c;
            mf_Metric := merge_sort metric_le (Collect c) |}.
Proof.
  intros Hwf Hn Hl Hne. unfold family.
  destruct (Hwf _ _ Hn) as (c' & Hl' & Hid & _). simplify_eq.
  apply list_find_unique.
  - apply elem_of_gather. exists (desc_id (Describe c)), l.
    split; [done|]. apply family_of_Some. eauto.
  - done.
  - intros f Hf Hname.
    apply elem_of_gather in Hf as (id & l' & Hid' & Hfam).
    apply family_of_Some in Hfam as (c' & Hl'' & _ & ->). simpl in Hname.
    destruct (Hwf _ _ Hid') as (c'' & Hc'' & Hid'' & _). simplify_eq.
    unfold desc_id in *. rewrite Hname in Hid'. by simplify_eq.
Qed.

Lemma gather_no_family h reg n :
  registry_wf h reg →
  (∀ l c, collectorsByID reg !! n = Some l → h !! l = Some c → Collect c = []) →
  n ∉ names (gather h reg).
Proof.
  intros Hwf Hnone Hin. unfold names in Hin.
  apply list_elem_of_fmap in Hin as (f & -> & Hf).
  apply elem_of_gather in Hf as (id & l & Hid & Hfam).
  apply family_of_Some in Hfam as (c & Hl & Hne & ->). simpl in *.
  destruct (Hwf _ _ Hid) as (c' & Hc' & Hid' & _). simplify_eq.
  by apply Hne, (Hnone l c).
Qed.

Lemma gather_name h reg n l c :
  collectorsByID reg !! n = Some l → h !! l = Some c → Collect c ≠ [] →
  fqName (Describe c) ∈ names (gather h reg).
Proof.
  intros Hn Hl Hne. unfold names. apply list_elem_of_fmap.
  eexists. split; [|apply elem_of_gather; exists n, l; split; [done|]].
  2: { apply family_of_Some. eauto. }
  done.
Qed.

(** ** Serving a scrape *)

Lemma ServeHTTP_spec r cnt gge w reg cv g :
  regs w !! r = Some reg →
  heap w !! cnt = Some (CCounterVec cv) →
  length (variableLabels (cv_desc cv)) = 1 →
  heap w !! gge = Some (CGauge g) →
  ∃ cv' g',
    ServeHTTP (InstrumentHandlerCounter cnt
                 (InstrumentHandlerInFlight gge (HandlerFor r))) w
    = Ok {| StatusCode := 200;
            Body := gather (<[gge := CGauge {| g_desc := g_desc g;
                                               g_valBits := (g_valBits g + 1)%Q |}]>
                              (heap w)) reg |}
         (upd (upd w gge (CGauge g')) cnt (CCounterVec cv'))
    ∧ cnt ≠ gge
    ∧ similar (CCounterVec cv) (CCounterVec cv')
    ∧ similar (CGauge g) (CGauge g').
Proof.
  intros Hr Hcnt Hlen Hgge.
  assert (cnt ≠ gge) as Hne by (intros ->; congruence).
  destruct w as [h rs]. simpl in *.
  unfold Gauge_Inc, Gauge_Dec, Gauge_Add, with_defer, Gather,
    CounterVec_WithLabelValues, CounterVec_child_Inc,
    load, load_reg, store, get_heap, upd. munfold. simpl.
  rewrite Hgge. simpl. rewrite Hr. simpl.
  rewrite lookup_insert_eq. simpl.
  rewrite !lookup_insert_ne by done. rewrite Hcnt. simpl.
  rewrite Hlen. simpl. rewrite insert_insert_eq.
  destruct cv as [d ch], g as [dg v]. simpl in *.
  destruct (ch !! [sanitizeCode 200]) as [child|] eqn:Hchild; simpl.
  - rewrite !lookup_insert_ne by done. rewrite Hcnt. simpl. rewrite Hchild.
    eexists (mkCounterVec d _), (mkGauge dg _).
    split; [reflexivity|]. split_and!; [done|constructor..].
  - rewrite lookup_insert_eq. simpl. rewrite lookup_insert_eq. simpl.
    rewrite insert_insert_eq.
    eexists (mkCounterVec d _), (mkGauge dg _).
    split; [reflexivity|]. split_and!; [done|constructor..].
Qed.

(** ** Well-formed registries and stores *)

Lemma similar_Describe c c' : similar c c' → Describe c' = Describe c.
Proof. by destruct 1. Qed.

Lemma registry_wf_update h reg l c c' :
  registry_wf h reg → h !! l = Some c → Describe c' = Describe c →
  registry_wf (<[l := c']> h) reg.
Proof.
  intros Hwf Hl Hd id l' Hid.
  destruct (Hwf _ _ Hid) as (c0 & Hl' & Hid' & Hdim).
  destruct (decide (l = l')) as [<-|Hne].
  - simplify_eq. exists c'. rewrite lookup_insert_eq, Hd. done.
  - exists c0. by rewrite lookup_insert_ne.
Qed.

Lemma registry_wf_alloc h reg l c :
  registry_wf h reg → h !! l = None → registry_wf (<[l := c]> h) reg.
Proof.
  intros Hwf Hl id l' Hid.
  destruct (Hwf _ _ Hid) as (c0 & Hl' & Hid' & Hdim).
  exists c0. rewrite lookup_insert_ne; [done|]. intros <-. congruence.
Qed.

Lemma registry_wf_add h reg l c :
  registry_wf h reg → h !! l = Some c → accepts reg (Describe c) →
  registry_wf h (reg_add reg l (Describe c)).
Proof.
  intros Hwf Hl (_ & _ & Hnone & _) id l' Hid.
  unfold reg_add in *; simpl in *.
  destruct (decide (desc_id (Describe c) = id)) as [<-|Hne].
  - rewrite lookup_insert_eq in Hid. simplify_eq.
    exists c. by rewrite lookup_insert_eq.
  - rewrite lookup_insert_ne in Hid by done.
    destruct (Hwf _ _ Hid) as (c0 & Hl' & Hid' & Hdim).
    exists c0. split_and!; [done..|].
    rewrite lookup_insert_ne; [done|]. unfold desc_id in *. congruence.
Qed.

Lemma registry_wf_remove h reg d :
  registry_wf h reg → registry_wf h (reg_remove reg d).
Proof.
  intros Hwf. unfold reg_remove, registry_unregister.
  destruct (collectorsByID reg !! desc_id d); simpl; [|done].
  intros id l Hid. simpl in *.
  apply lookup_delete_Some in Hid as [_ Hid]. by apply Hwf.
Qed.

Lemma store_ok_upd ms w l c c' :
  store_ok ms w → heap w !! l = Some c → similar c c' →
  store_ok ms (upd w l c').
Proof.
  intros [(c1 & H1 & D1) (g2 & H2 & D2) (c3 & H3 & D3)
          (hv & H4 & D4 & B4 & K4) (reg & Hr & Hwf)] Hl Hsim.
  split; unfold upd; simpl.
  - destruct (decide (l = K8sAPIEventCounter ms)) as [->|Hne].
    + rewrite lookup_insert_eq. simplify_eq. inversion Hsim; subst. eauto.
    + rewrite lookup_insert_ne by done. eauto.
  - destruct (decide (l = ProxyConnectCount ms)) as [->|Hne].
    + rewrite lookup_insert_eq. simplify_eq. inversion Hsim; subst. eauto.
    + rewrite lookup_insert_ne by done. eauto.
  - destruct (decide (l = InjectorSidecarCount ms)) as [->|Hne].
    + rewrite lookup_insert_eq. simplify_eq. inversion Hsim; subst. eauto.
    + rewrite lookup_insert_ne by done. eauto.
  - destruct (decide (l = InjectorRqTime ms)) as [->|Hne].
    + rewrite lookup_insert_eq. simplify_eq. inversion Hsim as [| |d bs ch ch' Hk|]; subst.
      simpl in *. eexists. split_and!; [done..|].
      intros lvs Hsome. destruct (Hk lvs Hsome) as [Hold| ->]; [by apply K4|].
      by rewrite D4.
    + rewrite lookup_insert_ne by done. eauto 10.
  - exists reg. split; [done|].
    eapply registry_wf_update; [done..|]. by apply similar_Describe.
Qed.

Lemma store_ok_alloc ms w l c :
  store_ok ms w → heap w !! l = None → store_ok ms (upd w l c).
Proof.
  intros [(c1 & H1 & D1) (g2 & H2 & D2) (c3 & H3 & D3)
          (hv & H4 & D4 & B4 & K4) (reg & Hr & Hwf)] Hl.
  split; unfold upd; simpl.
  1-4: rewrite lookup_insert_ne by (intros ->; congruence); eauto 10.
  exists reg. split; [done|]. by apply registry_wf_alloc.
Qed.

Lemma store_ok_set_reg ms w reg :
  store_ok ms w → registry_wf (heap w) reg →
  store_ok ms (set_reg w (registry ms) reg).
Proof.
  intros [? ? ? ? _] Hwf. split; try done.
  exists reg. by rewrite regs_set_reg.
Qed.

Lemma store_ok_constructed ms w : store_ok ms w → constructed ms w.
Proof.
  intros [(c1 & H1 & _) (g2 & H2 & _) (c3 & H3 & _) (hv & H4 & _) (reg & Hr & _)].
  unfold constructed. rewrite H1, H2, H3, H4, Hr. eauto 10.
Qed.

Lemma handler_ok_upd ms h w l c c' :
  handler_ok ms h w → heap w !! l = Some c → similar c c' →
  handler_ok ms h (upd w l c').
Proof.
  intros (cnt & gge & cv & g & -> & Hcnt & Hlen & Hgge & Hne) Hl Hsim.
  unfold handler_ok, upd. simpl.
  destruct (decide (l = cnt)) as [->|Hn1].
  - simplify_eq. inversion Hsim; subst. simpl in *.
    eexists cnt, gge, _, g. split_and!; [done|apply lookup_insert_eq|done| |done].
    rewrite lookup_insert_ne; [done|]. intros ->. congruence.
  - destruct (decide (l = gge)) as [->|Hn2].
    + simplify_eq. inversion Hsim; subst.
      eexists cnt, gge, cv, _. split_and!; [done| |done|apply lookup_insert_eq|done].
      by rewrite lookup_insert_ne.
    + exists cnt, gge, cv, g. by rewrite !lookup_insert_ne.
Qed.

Lemma handler_ok_alloc ms h w l c :
  handler_ok ms h w → heap w !! l = None → handler_ok ms h (upd w l c).
Proof.
  intros (cnt & gge & cv & g & -> & Hcnt & Hlen & Hgge & Hne) Hl.
  exists cnt, gge, cv, g. unfold upd; simpl.
  rewrite !lookup_insert_ne by (intros ->; congruence). done.
Qed.

Lemma handler_ok_set_reg ms h w r reg :
  handler_ok ms h w → handler_ok ms h (set_reg w r reg).
Proof. done. Qed.

(** ** [Start] and [Stop] on a well-formed store *)

Lemma fqName_k8s_desc : fqName k8s_desc = "osm_k8s_api_event_count".
Proof. reflexivity. Qed.
Lemma fqName_proxy_desc : fqName proxy_desc = "osm_proxy_connect_count".
Proof. reflexivity. Qed.
Lemma fqName_sidecar_desc :
  fqName sidecar_desc = "osm_injector_injector_sidecar_count".
Proof. reflexivity. Qed.
Lemma fqName_rqtime_desc : fqName rqtime_desc = "osm_injector_injector_rq_time".
Proof. reflexivity. Qed.

Lemma reg_remove_lookup reg d id :
  collectorsByID (reg_remove reg d) !! id =
    if decide (desc_id d = id) then None else collectorsByID reg !! id.
Proof.
  unfold reg_remove, registry_unregister.
  destruct (collectorsByID reg !! desc_id d) eqn:Hd; simpl.
  - apply lookup_delete.
  - case_decide; congruence.
Qed.

Lemma Start_started ms w w1 :
  store_ok ms w → Start ms w = Ok tt w1 →
  store_ok ms w1 ∧ started ms w1 ∧ heap w1 = heap w.
Proof.
  intros Hok HS.
  apply Start_Ok in HS
    as (reg & c1 & c2 & c3 & c4 & Hr & H1 & H2 & H3 & H4 & A1 & A2 & A3 & A4 & ->).
  pose proof Hok as [(k1 & E1 & D1) (k2 & E2 & D2) (k3 & E3 & D3)
                     (k4 & E4 & D4 & _) (reg' & Hr' & Hwf)].
  simplify_eq. simpl in *. split_and!; [| |done].
  - apply store_ok_set_reg; [done|].
    apply (registry_wf_add _ _ _ (CHistogramVec k4)); [|done..].
    apply (registry_wf_add _ _ _ (CCounter k3)); [|done..].
    apply (registry_wf_add _ _ _ (CGauge k2)); [|done..].
    by apply (registry_wf_add _ _ _ (CCounter k1)).
  - eexists. split; [apply regs_set_reg|].
    unfold reg_add, desc_id; simpl. rewrite D1, D2, D3, D4.
    split_and!; by simplify_map_eq.
Qed.

Lemma Stop_stopped ms w w1 :
  store_ok ms w → Stop ms w = Ok tt w1 →
  store_ok ms w1 ∧ heap w1 = heap w
  ∧ ∃ reg1, regs w1 !! registry ms = Some reg1
      ∧ collectorsByID reg1 !! fqName k8s_desc = None
      ∧ collectorsByID reg1 !! fqName proxy_desc = None
      ∧ collectorsByID reg1 !! fqName sidecar_desc = None
      ∧ collectorsByID reg1 !! fqName rqtime_desc = None.
Proof.
  intros Hok HT.
  pose proof Hok as [(k1 & E1 & D1) (k2 & E2 & D2) (k3 & E3 & D3)
                     (k4 & E4 & D4 & _) (reg & Hr & Hwf)].
  erewrite Stop_spec in HT by done. simplify_eq. simpl. split_and!; [|done|].
  - apply store_ok_set_reg; [done|]. by do 4 apply registry_wf_remove.
  - eexists. split; [apply regs_set_reg|].
    rewrite !reg_remove_lookup. unfold desc_id. rewrite D1, D2, D3, D4.
    split_and!; by repeat case_decide.
Qed.

(** ** [Handler] *)

Lemma upd_upd w l c c' : upd (upd w l c) l c' = upd w l c'.
Proof. unfold upd. simpl. by rewrite insert_insert_eq. Qed.

Lemma fresh_heap (w : World) : heap w !! fresh (dom (heap w)) = None.
Proof. apply not_elem_of_dom, is_fresh. Qed.

Lemma registry_register_inr_existing reg c d existing c' :
  registry_register reg c d = inr (AlreadyRegisteredError existing c') →
  collectorsByID reg !! desc_id d = Some existing
  ∧ (dimHashesByName reg !! fqName d = None
     ∨ dimHashesByName reg !! fqName d = Some (dimHash d)).
Proof.
  unfold registry_register. intros H.
  destruct (err d); [done|].
  destruct (dimHashesByName reg !! fqName d) as [dh|] eqn:Hdim.
  - destruct (decide (dh = dimHash d)) as [->|]; [|done].
    destruct (collectorsByID reg !! desc_id d) eqn:Hc.
    + inversion H; subst. auto.
    + by destruct (decide (desc_id d ∈ descIDs reg)).
  - destruct (collectorsByID reg !! desc_id d) eqn:Hc.
    + inversion H; subst. auto.
    + by destruct (decide (desc_id d ∈ descIDs reg)).
Qed.

(** Registering a new object of the handler: either it becomes a member of
    the registry, or a member of the same identity, kind and label
    dimensions is used in its place. *)
Lemma register_fresh_spec ms w l0 c0 is_kind l w' :
  store_ok ms w → heap w !! l0 = None → is_kind c0 = true →
  register_or_existing (registry ms) l0 is_kind (upd w l0 c0) = Ok l w' →
  store_ok ms w'
  ∧ heap w' = <[l0 := c0]> (heap w)
  ∧ (∃ col, heap w' !! l = Some col ∧ is_kind col = true
            ∧ fqName (Describe col) = fqName (Describe c0)
            ∧ dimHash (Describe col) = dimHash (Describe c0))
  ∧ (∃ reg reg', regs w !! registry ms = Some reg
       ∧ regs w' !! registry ms = Some reg'
       ∧ ∀ n, n ≠ fqName (Describe c0) →
              collectorsByID reg' !! n = collectorsByID reg !! n).
Proof.
  intros Hok Hfresh Hkind H.
  pose proof (store_ok_alloc ms w l0 c0 Hok Hfresh) as Hok1.
  destruct Hok1 as [? ? ? ? (reg & Hr & Hwf)].
  assert (store_ok ms (upd w l0 c0)) as Hok1 by (by split; eauto).
  unfold register_or_existing, Register, load_reg, load in H. munfold.
  rewrite Hr in H. simpl in H. rewrite lookup_insert_eq in H.
  destruct (registry_register reg l0 (Describe c0)) as [reg'|e] eqn:Hreg;
    simpl in H.
  - apply registry_register_inl in Hreg as [Hacc ->].
    injection H as <- <-. split_and!.
    + apply (store_ok_set_reg ms (upd w l0 c0)); [done|].
      apply registry_wf_add; [done|apply lookup_insert_eq|done].
    + done.
    + exists c0. simpl. by rewrite lookup_insert_eq.
    + exists reg, (reg_add reg l0 (Describe c0)). simpl.
      rewrite lookup_insert_eq. split_and!; [done..|].
      intros n Hn. unfold reg_add, desc_id. simpl. by rewrite lookup_insert_ne.
  - destruct e as [| | |existing new| | | |]; try done.
    apply registry_register_inr_existing in Hreg as [Hex Hdim].
    destruct (Hwf _ _ Hex) as (col & Hcol & Hid & Hdim').
    rewrite Hcol in H.
    destruct (is_kind col) eqn:Hk; [|done]. injection H as <- <-.
    split_and!; [done|done| |by exists reg, reg].
    exists col. split_and!; [done..|].
    unfold desc_id in *. rewrite Hid in Hdim'.
    destruct Hdim as [Hdim|Hdim]; congruence.
Qed.

Lemma CounterVec_WithLabelValues_new l lvs w cv :
  heap w !! l = Some (CCounterVec cv) →
  length (variableLabels (cv_desc cv)) = length lvs →
  cv_children cv !! lvs = None →
  CounterVec_WithLabelValues l lvs w =
    Ok (l, lvs)
       (upd w l (CCounterVec {|
          cv_desc := cv_desc cv;
          cv_children :=
            <[lvs := {| c_desc := cv_desc cv; valInt := 0; valBits := 0 |}]>
              (cv_children cv) |})).
Proof.
  intros Hl Hlen Hnone. unfold CounterVec_WithLabelValues, load, store. munfold.
  rewrite Hl. simpl. rewrite Hlen, Nat.eqb_refl. simpl. by rewrite Hnone.
Qed.

Lemma Handler_spec ms w h w' :
  store_ok ms w → Handler ms w = Ok h w' →
  store_ok ms w' ∧ handler_ok ms h w'
  ∧ (∀ l c, heap w !! l = Some c → heap w' !! l = Some c)
  ∧ (∃ reg reg', regs w !! registry ms = Some reg
       ∧ regs w' !! registry ms = Some reg'
       ∧ ∀ n, n ≠ "promhttp_metric_handler_requests_total" →
              n ≠ "promhttp_metric_handler_requests_in_flight" →
              collectorsByID reg' !! n = collectorsByID reg !! n).
Proof.
  intros Hok H. unfold Handler, InstrumentMetricHandler in H.
  unfold NewCounterVec, NewGauge, alloc in H. munfold.
  set (l0 := fresh (dom (heap w))) in *.
  assert (heap w !! l0 = None) as Hl0 by apply fresh_heap.
  fold (upd w l0 (CCounterVec
    {| cv_desc := desc_of_opts requests_total_opts ["code"]; cv_children := ∅ |})) in H.
  erewrite CounterVec_WithLabelValues_new in H;
    [|apply lookup_insert_eq|done|done].
  rewrite upd_upd in H.
  erewrite CounterVec_WithLabelValues_new in H;
    [|apply lookup_insert_eq|done|done].
  rewrite upd_upd in H.
  erewrite CounterVec_WithLabelValues_new in H;
    [|apply lookup_insert_eq|done|done].
  rewrite upd_upd in H. simpl in H.
  match type of H with
  | match register_or_existing _ _ _ (upd _ _ ?c) with _ => _ end = _ =>
      set (c0 := c) in *
  end.
  destruct (register_or_existing _ l0 _ _) as [cnt wa|] eqn:E1; [|done].
  apply (register_fresh_spec ms w l0 c0) in E1
    as (Hoka & Hha & (col1 & Hcnt & Hk1 & Hn1 & Hd1) & (reg & rega & Hr & Hra & Hcbi1));
    [|done..].
  set (l1 := fresh (dom (heap wa))) in *.
  assert (heap wa !! l1 = None) as Hl1 by apply fresh_heap.
  match type of H with
  | match register_or_existing _ _ _ ?w1 with _ => _ end = _ =>
      change w1 with
        (upd wa l1 (CGauge {| g_desc := desc_of_opts requests_in_flight_opts [];
                              g_valBits := 0 |})) in H
  end.
  destruct (register_or_existing _ l1 _ _) as [gge wb|] eqn:E2; [|done].
  apply (register_fresh_spec ms wa l1) in E2
    as (Hokb & Hhb & (col2 & Hgge & Hk2 & Hn2 & Hd2) & (rega' & regb & Hra' & Hrb & Hcbi2));
    [|done..].
  injection H as <- <-.
  destruct col1 as [| | |cv]; try done. destruct col2 as [|g| |]; try done.
  assert (cnt ≠ l1) as Hne1 by (intros ->; congruence).
  split_and!.
  - done.
  - exists cnt, gge, cv, g. split_and!.
    + done.
    + rewrite Hhb. by rewrite lookup_insert_ne.
    + unfold dimHash in Hd1. simpl in Hd1. by injection Hd1 as _ ->.
    + done.
    + destruct Hokb as [_ (g2 & E2 & D2) _ _ _]. intros ->.
      simplify_eq. simpl in Hn2. by rewrite D2 in Hn2.
  - intros l c Hl.
    assert (heap wa !! l = Some c) as Hla.
    { rewrite Hha, lookup_insert_ne; [done|]. intros <-. congruence. }
    rewrite Hhb, lookup_insert_ne; [done|]. intros <-. congruence.
  - exists reg, regb. split_and!; [done..|].
    assert (rega' = rega) as -> by congruence.
    intros n N1 N2. rewrite Hcbi2, Hcbi1; done.
Qed.

(** ** One scrape of a well-formed store *)

(** A scrape returns the families gathered from the registry over the heap
    [hs] that the request sees; that heap and the heap after the request
    differ from the heap before only at the collectors of the handler,
    which are none of the four instruments. *)
Lemma scrape_spec ms h w :
  store_ok ms w → handler_ok ms h w →
  ∃ rsp w' reg hs,
    ServeHTTP h w = Ok rsp w'
    ∧ regs w !! registry ms = Some reg ∧ regs w' = regs w
    ∧ Body rsp = gather hs reg ∧ registry_wf hs reg
    ∧ (∀ l, l ∉ handler_collectors h →
            hs !! l = heap w !! l ∧ heap w' !! l = heap w !! l)
    ∧ ((K8sAPIEventCounter ms ∉ handler_collectors h)
       ∧ (ProxyConnectCount ms ∉ handler_collectors h)
       ∧ (InjectorSidecarCount ms ∉ handler_collectors h)
       ∧ (InjectorRqTime ms ∉ handler_collectors h))
    ∧ store_ok ms w' ∧ handler_ok ms h w'.
Proof.
  intros Hok Hh.
  pose proof Hh as (cnt & gge & cv & g & -> & Hcnt & Hlen & Hgge & Hnp).
  pose proof Hok as [(k1 & E1 & _) (k2 & E2 & _) (k3 & E3 & _)
                     (k4 & E4 & _) (reg & Hr & Hwf)].
  destruct (ServeHTTP_spec _ _ _ _ _ _ _ Hr Hcnt Hlen Hgge)
    as (cv' & g' & HS & Hne & Hs1 & Hs2).
  eexists _, _, reg, _. split; [exact HS|]. simpl.
  assert (heap (upd w gge (CGauge g')) !! cnt = Some (CCounterVec cv)) as Hcnt'.
  { simpl. by rewrite lookup_insert_ne. }
  split_and!; try done.
  - eapply registry_wf_update; [done..|]. done.
  - intros l Hl. apply not_elem_of_cons in Hl as [N1 Hl].
    apply not_elem_of_cons in Hl as [N2 _].
    by rewrite !lookup_insert_ne.
  - intros Hin. apply elem_of_cons in Hin as [Heq|Hin]; [rewrite Heq in *; congruence|].
    apply elem_of_cons in Hin as [Heq|Hin]; [rewrite Heq in *; congruence|].
    by apply elem_of_nil in Hin.
  - intros Hin. apply elem_of_cons in Hin as [Heq|Hin]; [rewrite Heq in *; congruence|].
    apply elem_of_cons in Hin as [Heq|Hin]; [rewrite Heq in *; congruence|].
    by apply elem_of_nil in Hin.
  - intros Hin. apply elem_of_cons in Hin as [Heq|Hin]; [rewrite Heq in *; congruence|].
    apply elem_of_cons in Hin as [Heq|Hin]; [rewrite Heq in *; congruence|].
    by apply elem_of_nil in Hin.
  - intros Hin. apply elem_of_cons in Hin as [Heq|Hin]; [rewrite Heq in *; congruence|].
    apply elem_of_cons in Hin as [Heq|Hin]; [rewrite Heq in *; congruence|].
    by apply elem_of_nil in Hin.
  - eapply store_ok_upd; [|exact Hcnt'|done].
    eapply store_ok_upd; [done|exact Hgge|done].
  - eapply handler_ok_upd; [|exact Hcnt'|done].
    eapply handler_ok_upd; [done|exact Hgge|done].
Qed.

Lemma started_Handler ms w h w' :
  store_ok ms w → started ms w → Handler ms w = Ok h w' → started ms w'.
Proof.
  intros Hok (reg & Hr & S1 & S2 & S3 & S4) HH.
  destruct (Handler_spec _ _ _ _ Hok HH)
    as (_ & _ & _ & (reg0 & reg' & Hr0 & Hr' & Hcbi)).
  simplify_eq. exists reg'. split; [done|].
  rewrite !Hcbi by done. done.
Qed.

(** ** Claims on the scrape *)

(** What a scrape of a started store shows of the four names: the three
    plain instruments always, the histogram vector when it has a child. *)
Lemma scrape_names_started ms h w :
  store_ok ms w → handler_ok ms h w → started ms w →
  ∃ rsp w', ServeHTTP h w = Ok rsp w'
    ∧ "osm_k8s_api_event_count" ∈ names (Body rsp)
    ∧ "osm_proxy_connect_count" ∈ names (Body rsp)
    ∧ "osm_injector_injector_sidecar_count" ∈ names (Body rsp)
    ∧ ("osm_injector_injector_rq_time" ∈ names (Body rsp) ↔
       ∃ hv, heap w !! InjectorRqTime ms = Some (CHistogramVec hv)
             ∧ hv_children hv ≠ ∅).
Proof.
  intros Hok Hh (reg & Hr & S1 & S2 & S3 & S4).
  destruct (scrape_spec _ _ _ Hok Hh)
    as (rsp & w' & reg' & hs & HS & Hr' & _ & HB & Hwf & Hfr & (F1 & F2 & F3 & F4) & _).
  simplify_eq.
  destruct Hok as [(k1 & E1 & D1) (k2 & E2 & D2) (k3 & E3 & D3)
                   (k4 & E4 & D4 & _) _].
  destruct (Hfr _ F1) as [G1 _], (Hfr _ F2) as [G2 _],
    (Hfr _ F3) as [G3 _], (Hfr _ F4) as [G4 _].
  rewrite E1 in G1. rewrite E2 in G2. rewrite E3 in G3. rewrite E4 in G4.
  exists rsp, w'. split; [done|]. rewrite HB. split_and!.
  - rewrite <-fqName_k8s_desc, <-D1.
    by apply (gather_name _ _ _ _ (CCounter k1) S1 G1).
  - rewrite <-fqName_proxy_desc, <-D2.
    by apply (gather_name _ _ _ _ (CGauge k2) S2 G2).
  - rewrite <-fqName_sidecar_desc, <-D3.
    by apply (gather_name _ _ _ _ (CCounter k3) S3 G3).
  - split.
    + intros Hin. exists k4. split; [done|]. intros Hempty.
      revert Hin. apply gather_no_family; [done|].
      intros l c Hl Hc. rewrite <-fqName_rqtime_desc in Hl. simplify_eq.
      simpl. by rewrite Hempty, map_to_list_empty.
    + intros (hv & Hhv & Hne). assert (hv = k4) as -> by congruence.
      rewrite <-fqName_rqtime_desc, <-D4.
      apply (gather_name _ _ _ _ (CHistogramVec k4) S4 G4).
      simpl. intros Hnil. apply fmap_nil_inv in Hnil.
      by apply map_to_list_empty_iff in Hnil.
Qed.

(** What a scrape shows when none of the four names is registered. *)
Lemma scrape_names_stopped ms h w reg :
  store_ok ms w → handler_ok ms h w →
  regs w !! registry ms = Some reg →
  collectorsByID reg !! "osm_k8s_api_event_count" = None →
  collectorsByID reg !! "osm_proxy_connect_count" = None →
  collectorsByID reg !! "osm_injector_injector_sidecar_count" = None →
  collectorsByID reg !! "osm_injector_injector_rq_time" = None →
  ∃ rsp w', ServeHTTP h w = Ok rsp w'
    ∧ ("osm_k8s_api_event_count" ∉ names (Body rsp))
    ∧ ("osm_proxy_connect_count" ∉ names (Body rsp))
    ∧ ("osm_injector_injector_sidecar_count" ∉ names (Body rsp))
    ∧ ("osm_injector_injector_rq_time" ∉ names (Body rsp)).
Proof.
  intros Hok Hh Hr N1 N2 N3 N4.
  destruct (scrape_spec _ _ _ Hok Hh)
    as (rsp & w' & reg' & hs & HS & Hr' & _ & HB & Hwf & _).
  simplify_eq. exists rsp, w'. split; [done|]. rewrite HB.
  split_and!; (apply gather_no_family; [done|]); intros l c Hl; congruence.
Qed.

(** ** The default store *)

Lemma init_default : init empty_world = Ok default_ms w_init.
Proof. vm_compute. reflexivity. Qed.

Lemma store_ok_init : store_ok default_ms w_init.
Proof.
  split.
  - eexists. split; [by vm_compute|done].
  - eexists. split; [by vm_compute|done].
  - eexists. split; [by vm_compute|done].
  - exists {| hv_desc := rqtime_desc;
              hv_upperBounds := InjectorRqTime_Buckets;
              hv_children := ∅ |}.
    split_and!; [by vm_compute|done..|].
    simpl. intros lvs [x Hx]. by rewrite lookup_empty in Hx.
  - exists {| collectorsByID := ∅; descIDs := ∅; dimHashesByName := ∅ |}.
    split; [by vm_compute|].
    intros id l Hid. simpl in Hid. by rewrite lookup_empty in Hid.
Qed.

Lemma Start_default : Start default_ms w_init = Ok tt w_started.
Proof. vm_compute. reflexivity. Qed.

Lemma Handler_default :
  Handler default_ms w_started = Ok default_handler w_serving.
Proof. vm_compute. reflexivity. Qed.

Lemma store_ok_started : store_ok default_ms w_started.
Proof. eapply Start_started; [apply store_ok_init|apply Start_default]. Qed.

Lemma started_started : started default_ms w_started.
Proof. eapply Start_started; [apply store_ok_init|apply Start_default]. Qed.

Lemma store_ok_serving : store_ok default_ms w_serving.
Proof. eapply Handler_spec; [apply store_ok_started|apply Handler_default]. Qed.

Lemma handler_ok_serving : handler_ok default_ms default_handler w_serving.
Proof. eapply Handler_spec; [apply store_ok_started|apply Handler_default]. Qed.

Lemma started_serving : started default_ms w_serving.
Proof.
  eapply started_Handler;
    [apply store_ok_started|apply started_started|apply Handler_default].
Qed.

Lemma handler_ok_heap ms h w w' :
  heap w' = heap w → handler_ok ms h w → handler_ok ms h w'.
Proof. intros Heq. unfold handler_ok. by rewrite Heq. Qed.

(** C1, as the code has it.  On every constructed store, after [Start]
    the scrape served by the handler that [Handler] returns contains the
    names of the three plain instruments, osm_k8s_api_event_count,
    osm_proxy_connect_count and osm_injector_injector_sidecar_count; it
    contains osm_injector_injector_rq_time exactly when the histogram
    vector has a child, that is, once an observation has been recorded
    for some value of the label. *)
Theorem scrape_after_Start (ms : MetricsStore) (w w1 : World)
    (h : promhttp.Handler) (w2 : World) :
  store_ok ms w →
  Start ms w = Ok tt w1 →
  Handler ms w1 = Ok h w2 →
  ∃ rsp w3, ServeHTTP h w2 = Ok rsp w3
    ∧ "osm_k8s_api_event_count" ∈ names (Body rsp)
    ∧ "osm_proxy_connect_count" ∈ names (Body rsp)
    ∧ "osm_injector_injector_sidecar_count" ∈ names (Body rsp)
    ∧ ("osm_injector_injector_rq_time" ∈ names (Body rsp) ↔
       ∃ hv, heap w !! InjectorRqTime ms = Some (CHistogramVec hv)
             ∧ hv_children hv ≠ ∅).
Proof.
  intros Hok HS HH.
  destruct (Start_started _ _ _ Hok HS) as (Hok1 & Hst1 & Hheap1).
  destruct (Handler_spec _ _ _ _ Hok1 HH) as (Hok2 & Hh2 & Hfr & _).
  pose proof (started_Handler _ _ _ _ Hok1 Hst1 HH) as Hst2.
  destruct (scrape_names_started _ _ _ Hok2 Hh2 Hst2)
    as (rsp & w3 & HSv & N1 & N2 & N3 & N4).
  exists rsp, w3. split_and!; [done..|].
  rewrite N4. destruct Hok as [_ _ _ (k4 & E4 & _) _].
  pose proof (Hfr (InjectorRqTime ms) (CHistogramVec k4)) as E4'.
  rewrite Hheap1 in E4'. specialize (E4' E4).
  split; intros (hv & Hhv & Hne); exists hv; split; congruence.
Qed.

(** C1 fails on the default store: right after [init] and [Start], with no
    observation recorded, the scrape does not contain
    osm_injector_injector_rq_time. *)
Lemma fresh_histogram_not_scraped :
  ∃ ms w w1 h w2 rsp w3,
    init empty_world = Ok ms w
    ∧ store_ok ms w
    ∧ Start ms w = Ok tt w1
    ∧ Handler ms w1 = Ok h w2
    ∧ ServeHTTP h w2 = Ok rsp w3
    ∧ "osm_injector_injector_rq_time" ∉ names (Body rsp).
Proof.
  exists default_ms, w_init, w_started, default_handler, w_serving.
  eexists _, _. split_and!.
  - apply init_default.
  - apply store_ok_init.
  - apply Start_default.
  - apply Handler_default.
  - vm_compute. reflexivity.
  - apply (bool_decide_unpack _). vm_compute. exact I.
Qed.

Lemma scrape_after_Start_witness :
  store_ok default_ms w_init
  ∧ Start default_ms w_init = Ok tt w_started
  ∧ Handler default_ms w_started = Ok default_handler w_serving
  ∧ ∃ rsp w3, ServeHTTP default_handler w_serving = Ok rsp w3
      ∧ "osm_k8s_api_event_count" ∈ names (Body rsp)
      ∧ "osm_proxy_connect_count" ∈ names (Body rsp)
      ∧ "osm_injector_injector_sidecar_count" ∈ names (Body rsp)
      ∧ ("osm_injector_injector_rq_time" ∈ names (Body rsp) ↔
         ∃ hv, heap w_init !! InjectorRqTime default_ms = Some (CHistogramVec hv)
               ∧ hv_children hv ≠ ∅).
Proof.
  split_and!;
    [apply store_ok_init|apply Start_default|apply Handler_default|].
  apply (scrape_after_Start default_ms w_init w_started default_handler w_serving).
  - apply store_ok_init.
  - apply Start_default.
  - apply Handler_default.
Defined.

(** C3. On every constructed store, after [Stop] the scrape served by the
    handler that [Handler] returns contains none of the four metric
    names. *)
Theorem scrape_after_Stop (ms : MetricsStore) (w w1 : World)
    (h : promhttp.Handler) (w2 : World) :
  store_ok ms w →
  Stop ms w = Ok tt w1 →
  Handler ms w1 = Ok h w2 →
  ∃ rsp w3, ServeHTTP h w2 = Ok rsp w3
    ∧ ("osm_k8s_api_event_count" ∉ names (Body rsp))
    ∧ ("osm_proxy_connect_count" ∉ names (Body rsp))
    ∧ ("osm_injector_injector_sidecar_count" ∉ names (Body rsp))
    ∧ ("osm_injector_injector_rq_time" ∉ names (Body rsp)).
Proof.
  intros Hok HT HH.
  destruct (Stop_stopped _ _ _ Hok HT)
    as (Hok1 & _ & reg1 & Hr1 & N1 & N2 & N3 & N4).
  destruct (Handler_spec _ _ _ _ Hok1 HH)
    as (Hok2 & Hh2 & _ & (reg & reg2 & Hr & Hr2 & Hcbi)).
  simplify_eq.
  apply (scrape_names_stopped ms h w2 reg2); try done.
  all: rewrite Hcbi by done; done.
Qed.

(** The same with a handler obtained before [Stop]. *)
Lemma stopped_scrape_same_handler ms h w w1 :
  store_ok ms w → handler_ok ms h w →
  Stop ms w = Ok tt w1 →
  ∃ rsp w2, ServeHTTP h w1 = Ok rsp w2
    ∧ ("osm_k8s_api_event_count" ∉ names (Body rsp))
    ∧ ("osm_proxy_connect_count" ∉ names (Body rsp))
    ∧ ("osm_injector_injector_sidecar_count" ∉ names (Body rsp))
    ∧ ("osm_injector_injector_rq_time" ∉ names (Body rsp)).
Proof.
  intros Hok Hh HT.
  destruct (Stop_stopped _ _ _ Hok HT)
    as (Hok1 & Hheap & reg1 & Hr1 & N1 & N2 & N3 & N4).
  apply (scrape_names_stopped ms h w1 reg1); try done.
  by apply (handler_ok_heap ms h w).
Qed.

(** C4. Serving a scrape, at any time in the life of a constructed store
    and of its handler, writes to the two collectors of the handler only:
    the registry and every other object are left as they were, in
    particular the four business instruments.  The store and the handler
    are then ready for the next request. *)
Theorem ServeHTTP_preserves_instruments (ms : MetricsStore)
    (h : promhttp.Handler) (w : World) :
  store_ok ms w → handler_ok ms h w →
  ∃ rsp w', ServeHTTP h w = Ok rsp w'
    ∧ regs w' = regs w
    ∧ (∀ l, l ∉ handler_collectors h → heap w' !! l = heap w !! l)
    ∧ heap w' !! K8sAPIEventCounter ms = heap w !! K8sAPIEventCounter ms
    ∧ heap w' !! ProxyConnectCount ms = heap w !! ProxyConnectCount ms
    ∧ heap w' !! InjectorSidecarCount ms = heap w !! InjectorSidecarCount ms
    ∧ heap w' !! InjectorRqTime ms = heap w !! InjectorRqTime ms
    ∧ store_ok ms w' ∧ handler_ok ms h w'.
Proof.
  intros Hok Hh.
  destruct (scrape_spec _ _ _ Hok Hh)
    as (rsp & w' & reg & hs & HS & _ & Hregs & _ & _ & Hfr & (F1 & F2 & F3 & F4) & Hok' & Hh').
  exists rsp, w'. split_and!; try done.
  - intros l Hl. by apply Hfr.
  - by apply Hfr.
  - by apply Hfr.
  - by apply Hfr.
  - by apply Hfr.
Qed.

Lemma ServeHTTP_preserves_instruments_witness :
  store_ok default_ms w_serving
  ∧ handler_ok default_ms default_handler w_serving
  ∧ ∃ rsp w', ServeHTTP default_handler w_serving = Ok rsp w'
    ∧ regs w' = regs w_serving
    ∧ (∀ l, l ∉ handler_collectors default_handler →
            heap w' !! l = heap w_serving !! l)
    ∧ heap w' !! K8sAPIEventCounter default_ms
      = heap w_serving !! K8sAPIEventCounter default_ms
    ∧ heap w' !! ProxyConnectCount default_ms
      = heap w_serving !! ProxyConnectCount default_ms
    ∧ heap w' !! InjectorSidecarCount default_ms
      = heap w_serving !! InjectorSidecarCount default_ms
    ∧ heap w' !! InjectorRqTime default_ms
      = heap w_serving !! InjectorRqTime default_ms
    ∧ store_ok default_ms w' ∧ handler_ok default_ms default_handler w'.
Proof.
  split; [apply store_ok_serving|]. split; [apply handler_ok_serving|].
  apply (ServeHTTP_preserves_instruments default_ms default_handler w_serving).
  - apply store_ok_serving.
  - apply handler_ok_serving.
Defined.

Lemma Stop_default : Stop default_ms w_started = Ok tt w_stopped.
Proof. vm_compute. reflexivity. Qed.

Lemma Handler_after_Stop_default :
  Handler default_ms w_stopped = Ok handler_after_Stop w_serving_after_Stop.
Proof. vm_compute. reflexivity. Qed.

Lemma scrape_after_Stop_witness :
  store_ok default_ms w_started
  ∧ Stop default_ms w_started = Ok tt w_stopped
  ∧ Handler default_ms w_stopped = Ok handler_after_Stop w_serving_after_Stop
  ∧ ∃ rsp w3, ServeHTTP handler_after_Stop w_serving_after_Stop = Ok rsp w3
      ∧ ("osm_k8s_api_event_count" ∉ names (Body rsp))
      ∧ ("osm_proxy_connect_count" ∉ names (Body rsp))
      ∧ ("osm_injector_injector_sidecar_count" ∉ names (Body rsp))
      ∧ ("osm_injector_injector_rq_time" ∉ names (Body rsp)).
Proof.
  split_and!;
    [apply store_ok_started|apply Stop_default|apply Handler_after_Stop_default|].
  apply (scrape_after_Stop default_ms w_started w_stopped
           handler_after_Stop w_serving_after_Stop).
  - apply store_ok_started.
  - apply Stop_default.
  - apply Handler_after_Stop_default.
Defined.

Lemma Start_twice_panics_witness :
  Start default_ms w_init = Ok tt w_started
  ∧ Start default_ms w_started =
      Panic (AlreadyRegisteredError (K8sAPIEventCounter default_ms)
                                    (K8sAPIEventCounter default_ms)) w_started.
Proof.
  split; [apply Start_default|].
  apply (Start_twice_panics default_ms w_init w_started).
  apply Start_default.
Defined.

(** [Stop] before any [Start]: nothing is registered, each removal
    reports [false], and [Stop] returns. *)
Lemma Stop_never_fails_witness :
  constructed default_ms w_init
  ∧ Unregister (registry default_ms) (K8sAPIEventCounter default_ms) w_init
    = Ok false w_init
  ∧ ∃ w1, Stop default_ms w_init = Ok tt w1
      ∧ heap w1 = heap w_init ∧ constructed default_ms w1.
Proof.
  split; [apply store_ok_constructed, store_ok_init|].
  split; [vm_compute; reflexivity|].
  apply (Stop_never_fails default_ms w_init).
  apply store_ok_constructed, store_ok_init.
Defined.

Lemma Start_Stop_Start_witness :
  Start default_ms w_init = Ok tt w_started
  ∧ Stop default_ms w_started = Ok tt w_stopped
  ∧ Start default_ms w_stopped = Ok tt w_started.
Proof.
  split; [apply Start_default|]. split; [apply Stop_default|].
  apply (Start_Stop_Start default_ms w_init w_started w_stopped).
  - apply Start_default.
  - apply Stop_default.
Defined.

(** ** Operations on the instruments and what the next scrape shows *)

Lemma started_regs ms w w' : regs w' = regs w → started ms w → started ms w'.
Proof. intros Heq. unfold started. by rewrite Heq. Qed.

Lemma upd_id w l c : heap w !! l = Some c → upd w l c = w.
Proof.
  intros H. destruct w as [h rs]. unfold upd. simpl in *. by rewrite insert_id.
Qed.

Lemma Counter_Inc_eq l w c :
  heap w !! l = Some (CCounter c) →
  Counter_Inc l w =
    Ok tt (upd w l (CCounter {| c_desc := c_desc c;
                                valInt := valInt c + 1;
                                valBits := valBits c |})).
Proof. intros H. unfold Counter_Inc, load, store. munfold. by rewrite H. Qed.

Lemma Inc_times_eq l n w c :
  heap w !! l = Some (CCounter c) →
  Inc_times l n w =
    Ok tt (upd w l (CCounter {| c_desc := c_desc c;
                                valInt := valInt c + N.of_nat n;
                                valBits := valBits c |})).
Proof.
  revert w c. induction n as [|n IH]; intros w c H.
  - simpl. munfold. rewrite N.add_0_r. destruct c. simpl. by rewrite upd_id.
  - cbn [Inc_times]. munfold. rewrite (Counter_Inc_eq _ _ _ H).
    erewrite IH by apply lookup_insert_eq. simpl.
    rewrite upd_upd. do 4 f_equal. lia.
Qed.

Lemma Gauge_Set_eq l w g v :
  heap w !! l = Some (CGauge g) →
  Gauge_Set l v w =
    Ok tt (upd w l (CGauge {| g_desc := g_desc g; g_valBits := v |})).
Proof. intros H. unfold Gauge_Set, load, store. munfold. by rewrite H. Qed.

(** The sample of a plain instrument in a scrape is its current value. *)
Lemma scrape_K8sAPIEventCounter ms h w c :
  store_ok ms w → handler_ok ms h w → started ms w →
  heap w !! K8sAPIEventCounter ms = Some (CCounter c) →
  ∃ rsp w', ServeHTTP h w = Ok rsp w'
    ∧ sample "osm_k8s_api_event_count" [] (Body rsp)
      = Some (VCounter (Counter_get c))
    ∧ store_ok ms w' ∧ handler_ok ms h w' ∧ started ms w'
    ∧ heap w' !! K8sAPIEventCounter ms = Some (CCounter c).
Proof.
  intros Hok Hh Hst Hc.
  pose proof Hst as (reg & Hr & S1 & _).
  destruct (scrape_spec _ _ _ Hok Hh)
    as (rsp & w' & reg' & hs & HS & Hr' & Hregs & HB & Hwf & Hfr & (F1 & _) & Hok' & Hh').
  simplify_eq. destruct (Hfr _ F1) as [G1 G1'].
  rewrite Hc in G1, G1'.
  destruct Hok as [(k1 & E1 & D1) _ _ _ _]. simplify_eq.
  exists rsp, w'. split_and!; try done; [|by apply (started_regs ms w)].
  unfold sample. rewrite HB.
  rewrite <-fqName_k8s_desc in *.
  erewrite (gather_family hs _ _ _ (CCounter k1)); [|done..].
  reflexivity.
Qed.

Lemma scrape_ProxyConnectCount ms h w g :
  store_ok ms w → handler_ok ms h w → started ms w →
  heap w !! ProxyConnectCount ms = Some (CGauge g) →
  ∃ rsp w', ServeHTTP h w = Ok rsp w'
    ∧ sample "osm_proxy_connect_count" [] (Body rsp)
      = Some (VGauge (g_valBits g)).
Proof.
  intros Hok Hh Hst Hc.
  pose proof Hst as (reg & Hr & _ & S2 & _).
  destruct (scrape_spec _ _ _ Hok Hh)
    as (rsp & w' & reg' & hs & HS & Hr' & Hregs & HB & Hwf & Hfr & (_ & F2 & _) & _).
  simplify_eq. destruct (Hfr _ F2) as [G2 _].
  rewrite Hc in G2.
  destruct Hok as [_ (k2 & E2 & D2) _ _ _]. simplify_eq.
  exists rsp, w'. split; [done|].
  unfold sample. rewrite HB.
  rewrite <-fqName_proxy_desc in *.
  erewrite (gather_family hs _ _ _ (CGauge k2)); [|done..].
  reflexivity.
Qed.

Lemma Inc_times_ok ms h w n c :
  store_ok ms w → handler_ok ms h w → started ms w →
  heap w !! K8sAPIEventCounter ms = Some (CCounter c) →
  ∃ w', Inc_times (K8sAPIEventCounter ms) n w = Ok tt w'
    ∧ store_ok ms w' ∧ handler_ok ms h w' ∧ started ms w'
    ∧ heap w' !! K8sAPIEventCounter ms
      = Some (CCounter {| c_desc := c_desc c;
                          valInt := valInt c + N.of_nat n;
                          valBits := valBits c |}).
Proof.
  intros Hok Hh Hst Hc. eexists. split; [by apply Inc_times_eq|].
  assert (similar (CCounter c)
            (CCounter {| c_desc := c_desc c; valInt := valInt c + N.of_nat n;
                         valBits := valBits c |})) as Hsim
    by (destruct c; constructor).
  split_and!.
  - by eapply store_ok_upd.
  - by eapply handler_ok_upd.
  - by apply (started_regs ms w).
  - apply lookup_insert_eq.
Qed.

Lemma Gauge_Set_ok ms h w v :
  store_ok ms w → handler_ok ms h w → started ms w →
  ∃ w', Gauge_Set (ProxyConnectCount ms) v w = Ok tt w'
    ∧ store_ok ms w' ∧ handler_ok ms h w' ∧ started ms w'
    ∧ heap w' !! ProxyConnectCount ms
      = Some (CGauge {| g_desc := proxy_desc; g_valBits := v |}).
Proof.
  intros Hok Hh Hst.
  pose proof Hok as [_ (g & Hg & Dg) _ _ _].
  eexists. split; [by apply Gauge_Set_eq|].
  assert (similar (CGauge g) (CGauge {| g_desc := g_desc g; g_valBits := v |}))
    as Hsim by (destruct g; constructor).
  split_and!.
  - by eapply store_ok_upd.
  - by eapply handler_ok_upd.
  - by apply (started_regs ms w).
  - rewrite <-Dg. apply lookup_insert_eq.
Qed.

(** C5. On a started store, with any number [n] of increments of the K8s
    event counter between two scrapes, and nothing else, the value of
    osm_k8s_api_event_count in the second scrape is its value in the first
    plus [n]. *)
Theorem counter_scrape_increments (ms : MetricsStore) (h : promhttp.Handler)
    (w : World) (n : nat) :
  store_ok ms w → handler_ok ms h w → started ms w →
  ∃ rsp1 w1 w2 rsp2 w3 v1 v2,
    ServeHTTP h w = Ok rsp1 w1
    ∧ Inc_times (K8sAPIEventCounter ms) n w1 = Ok tt w2
    ∧ ServeHTTP h w2 = Ok rsp2 w3
    ∧ sample "osm_k8s_api_event_count" [] (Body rsp1) = Some (VCounter v1)
    ∧ sample "osm_k8s_api_event_count" [] (Body rsp2) = Some (VCounter v2)
    ∧ (v2 == v1 + inject_Z (Z.of_nat n))%Q.
Proof.
  intros Hok Hh Hst.
  pose proof Hok as [(c & Hc & _) _ _ _ _].
  destruct (scrape_K8sAPIEventCounter _ _ _ _ Hok Hh Hst Hc)
    as (rsp1 & w1 & HS1 & Hv1 & Hok1 & Hh1 & Hst1 & Hc1).
  destruct (Inc_times_ok _ _ _ n _ Hok1 Hh1 Hst1 Hc1)
    as (w2 & HI & Hok2 & Hh2 & Hst2 & Hc2).
  destruct (scrape_K8sAPIEventCounter _ _ _ _ Hok2 Hh2 Hst2 Hc2)
    as (rsp2 & w3 & HS2 & Hv2 & _).
  exists rsp1, w1, w2, rsp2, w3. eexists _, _.
  split_and!; [done..|].
  unfold Counter_get. simpl.
  rewrite N2Z.inj_add, nat_N_Z, inject_Z_plus. ring.
Qed.

(** C6. On a started store, a scrape after setting the proxy gauge to [v]
    shows [v]; after setting it to [v1] and then to [v2] it shows [v2]. *)
Theorem gauge_last_write_wins (ms : MetricsStore) (h : promhttp.Handler)
    (w : World) :
  store_ok ms w → handler_ok ms h w → started ms w →
  (∀ v, ∃ w1 rsp w2,
     Gauge_Set (ProxyConnectCount ms) v w = Ok tt w1
     ∧ ServeHTTP h w1 = Ok rsp w2
     ∧ sample "osm_proxy_connect_count" [] (Body rsp) = Some (VGauge v))
  ∧ (∀ v1 v2, ∃ w1 w2 rsp w3,
       Gauge_Set (ProxyConnectCount ms) v1 w = Ok tt w1
       ∧ Gauge_Set (ProxyConnectCount ms) v2 w1 = Ok tt w2
       ∧ ServeHTTP h w2 = Ok rsp w3
       ∧ sample "osm_proxy_connect_count" [] (Body rsp) = Some (VGauge v2)).
Proof.
  intros Hok Hh Hst. split.
  - intros v.
    destruct (Gauge_Set_ok _ _ _ v Hok Hh Hst) as (w1 & HG & Hok1 & Hh1 & Hst1 & Hg1).
    destruct (scrape_ProxyConnectCount _ _ _ _ Hok1 Hh1 Hst1 Hg1)
      as (rsp & w2 & HS & Hv).
    by exists w1, rsp, w2.
  - intros v1 v2.
    destruct (Gauge_Set_ok _ _ _ v1 Hok Hh Hst) as (w1 & HG1 & Hok1 & Hh1 & Hst1 & _).
    destruct (Gauge_Set_ok _ _ _ v2 Hok1 Hh1 Hst1) as (w2 & HG2 & Hok2 & Hh2 & Hst2 & Hg2).
    destruct (scrape_ProxyConnectCount _ _ _ _ Hok2 Hh2 Hst2 Hg2)
      as (rsp & w3 & HS & Hv).
    by exists w1, w2, rsp, w3.
Qed.

(** ** The histogram vector in a scrape *)

Lemma family_None n body : n ∉ names body → family n body = None.
Proof.
  intros Hn. unfold family.
  destruct (list_find _ body) as [[i f]|] eqn:Hf; [|done].
  apply list_find_Some in Hf as (Hi & Hname & _).
  exfalso. apply Hn. unfold names. apply list_elem_of_fmap.
  exists f. split; [done|]. by eapply list_elem_of_lookup_2.
Qed.

(** The metrics collected from the request-time vector: one per child,
    labelled with the value of [success]. *)
Lemma elem_of_Collect_rqtime hv m :
  hv_desc hv = rqtime_desc →
  (∀ lvs, is_Some (hv_children hv !! lvs) → length lvs = 1) →
  m ∈ merge_sort metric_le (Collect (CHistogramVec hv)) ↔
  ∃ x hx, hv_children hv !! [x] = Some hx
          ∧ m = {| Label := [("success", x)]; Value := Histogram_Write hx |}.
Proof.
  intros Hd Hk. rewrite merge_sort_Permutation. simpl.
  rewrite list_elem_of_fmap, Hd. split.
  - intros ([lvs hx] & -> & Hin). apply elem_of_map_to_list in Hin.
    pose proof (Hk lvs (mk_is_Some _ _ Hin)) as Hlen.
    destruct lvs as [|x [|]]; try done. exists x, hx. done.
  - intros (x & hx & Hin & ->). exists ([x], hx). split; [done|].
    by apply elem_of_map_to_list.
Qed.

Lemma metric_rqtime hv f x :
  hv_desc hv = rqtime_desc →
  (∀ lvs, is_Some (hv_children hv !! lvs) → length lvs = 1) →
  mf_Metric f = merge_sort metric_le (Collect (CHistogramVec hv)) →
  metric [("success", x)] f = Histogram_Write <$> (hv_children hv !! [x]).
Proof.
  intros Hd Hk Hf. unfold metric. rewrite Hf.
  destruct (hv_children hv !! [x]) as [hx|] eqn:Hx; simpl.
  - assert (snd <$> list_find (λ m, Label m = [("success", x)])
                       (merge_sort metric_le (Collect (CHistogramVec hv)))
            = Some {| Label := [("success", x)]; Value := Histogram_Write hx |})
      as Hu.
    { apply list_find_unique.
      - apply elem_of_Collect_rqtime; eauto.
      - done.
      - intros m Hm Hl.
        apply elem_of_Collect_rqtime in Hm as (y & hy & Hy & ->); [|done..].
        simpl in Hl. by simplify_eq. }
    destruct (list_find _ _) as [[i m]|]; simpl in *; by simplify_eq.
  - destruct (list_find _ _) as [[i m]|] eqn:Hfind; [|done].
    apply list_find_Some in Hfind as (Hi & Hl & _).
    apply list_elem_of_lookup_2 in Hi.
    apply elem_of_Collect_rqtime in Hi as (y & hy & Hy & ->); [|done..].
    simpl in Hl. by simplify_eq.
Qed.

Lemma scrape_InjectorRqTime ms h w hv :
  store_ok ms w → handler_ok ms h w → started ms w →
  heap w !! InjectorRqTime ms = Some (CHistogramVec hv) →
  ∃ rsp w', ServeHTTP h w = Ok rsp w'
    ∧ (∀ x, sample "osm_injector_injector_rq_time" [("success", x)] (Body rsp)
            = Histogram_Write <$> (hv_children hv !! [x]))
    ∧ store_ok ms w' ∧ handler_ok ms h w' ∧ started ms w'
    ∧ heap w' !! InjectorRqTime ms = Some (CHistogramVec hv).
Proof.
  intros Hok Hh Hst Hc.
  pose proof Hst as (reg & Hr & _ & _ & _ & S4).
  destruct (scrape_spec _ _ _ Hok Hh)
    as (rsp & w' & reg' & hs & HS & Hr' & Hregs & HB & Hwf & Hfr & (_ & _ & _ & F4) & Hok' & Hh').
  simplify_eq. destruct (Hfr _ F4) as [G4 G4'].
  rewrite Hc in G4, G4'.
  destruct Hok as [_ _ _ (k4 & E4 & D4 & _ & K4) _]. simplify_eq.
  exists rsp, w'. split_and!; try done; [|by apply (started_regs ms w)].
  intros x. unfold sample. rewrite HB.
  rewrite <-fqName_rqtime_desc in *.
  destruct (decide (Collect (CHistogramVec k4) = [])) as [Hnil|Hne].
  - rewrite family_None; last first.
    { apply gather_no_family; [done|]. intros l c Hl Hlc. by simplify_eq. }
    simpl in *. apply fmap_nil_inv, map_to_list_empty_iff in Hnil.
    by rewrite Hnil, lookup_empty.
  - erewrite (gather_family hs _ _ _ (CHistogramVec k4)); [|done..].
    simpl. by apply metric_rqtime.
Qed.

Lemma newHistogram_rqtime x :
  newHistogram rqtime_desc InjectorRqTime_Buckets [x] =
    inl {| upperBounds := InjectorRqTime_Buckets;
           h_buckets := replicate 9 0%N; h_count := 0; h_sum := 0 |}.
Proof. reflexivity. Qed.

(** A first observation for the label value [x]: the child is created
    with the declared boundaries and receives the observation. *)
Lemma Observe_first ms h w hv x v :
  store_ok ms w → handler_ok ms h w → started ms w →
  heap w !! InjectorRqTime ms = Some (CHistogramVec hv) →
  hv_children hv !! [x] = None →
  ∃ o w1 w2,
    HistogramVec_WithLabelValues (InjectorRqTime ms) [x] w = Ok o w1
    ∧ Observe o v w1 = Ok tt w2
    ∧ store_ok ms w2 ∧ handler_ok ms h w2 ∧ started ms w2
    ∧ heap w2 !! InjectorRqTime ms =
        Some (CHistogramVec {|
          hv_desc := hv_desc hv;
          hv_upperBounds := hv_upperBounds hv;
          hv_children :=
            <[[x] := observe {| upperBounds := InjectorRqTime_Buckets;
                                h_buckets := replicate 9 0%N;
                                h_count := 0; h_sum := 0 |} v]>
              (hv_children hv) |}).
Proof.
  intros Hok Hh Hst Hc Hx.
  pose proof Hok as [_ _ _ (k4 & E4 & D4 & B4 & K4) _].
  assert (k4 = hv) as -> by congruence. clear E4.
  set (h0 := {| upperBounds := InjectorRqTime_Buckets;
                h_buckets := replicate 9 0%N; h_count := 0; h_sum := 0 |}).
  set (c1 := CHistogramVec {| hv_desc := hv_desc hv;
                              hv_upperBounds := hv_upperBounds hv;
                              hv_children := <[[x] := h0]> (hv_children hv) |}).
  set (c2 := CHistogramVec {| hv_desc := hv_desc hv;
                              hv_upperBounds := hv_upperBounds hv;
                              hv_children :=
                                <[[x] := observe h0 v]> (hv_children hv) |}).
  exists (InjectorRqTime ms, [x]), (upd w (InjectorRqTime ms) c1),
    (upd w (InjectorRqTime ms) c2).
  assert (similar (CHistogramVec hv) c2) as Hsim.
  { unfold c2. destruct hv as [d bs ch]. simpl in *. subst d. constructor.
    intros lvs Hs. destruct (decide (lvs = [x])) as [->|Hne]; [by right|].
    left. by rewrite lookup_insert_ne in Hs. }
  split_and!.
  - unfold HistogramVec_WithLabelValues, load, store. munfold.
    rewrite Hc. rewrite D4, B4, Hx, newHistogram_rqtime.
    unfold c1. rewrite D4, B4. reflexivity.
  - unfold Observe, load, store. munfold. simpl.
    rewrite lookup_insert_eq. simpl. rewrite lookup_insert_eq.
    unfold upd, c2. simpl. by rewrite !insert_insert_eq.
  - exact (store_ok_upd _ _ _ _ _ Hok Hc Hsim).
  - exact (handler_ok_upd _ _ _ _ _ _ Hh Hc Hsim).
  - by apply (started_regs ms w).
  - simpl. by rewrite lookup_insert_eq.
Qed.

(** C7. On a started store where nothing was observed yet for
    success="true", after one observation of 0.3 under that label the next
    scrape shows, in the "true" partition of
    osm_injector_injector_rq_time, one observation of sum 0.3 and the
    cumulative counts 0, 0, 1, 1, 1, 1, 1, 1, 1 for the boundaries 0.1,
    0.25, 0.5, 1, 2.5, 5, 10, 20, 40: count 1 for every declared boundary
    from 0.3 on.  The "false" partition is shown as in the scrape before
    the observation (absent when it was absent). *)
Theorem observe_true_partition (ms : MetricsStore) (h : promhttp.Handler)
    (w : World) (hv : HistogramVec) :
  store_ok ms w → handler_ok ms h w → started ms w →
  heap w !! InjectorRqTime ms = Some (CHistogramVec hv) →
  hv_children hv !! ["true"] = None →
  ∃ rsp0 w0 o w1 w2 rsp w3,
    ServeHTTP h w = Ok rsp0 w0
    ∧ HistogramVec_WithLabelValues (InjectorRqTime ms) ["true"] w0 = Ok o w1
    ∧ Observe o (3#10) w1 = Ok tt w2
    ∧ ServeHTTP h w2 = Ok rsp w3
    ∧ sample "osm_injector_injector_rq_time" [("success", "true")] (Body rsp)
      = Some (VHistogram 1 (3#10)
                [ {| CumulativeCount := 0; UpperBound := 1#10 |};
                  {| CumulativeCount := 0; UpperBound := 25#100 |};
                  {| CumulativeCount := 1; UpperBound := 5#10 |};
                  {| CumulativeCount := 1; UpperBound := 1 |};
                  {| CumulativeCount := 1; UpperBound := 25#10 |};
                  {| CumulativeCount := 1; UpperBound := 5 |};
                  {| CumulativeCount := 1; UpperBound := 10 |};
                  {| CumulativeCount := 1; UpperBound := 20 |};
                  {| CumulativeCount := 1; UpperBound := 40 |} ])
    ∧ sample "osm_injector_injector_rq_time" [("success", "false")] (Body rsp)
      = sample "osm_injector_injector_rq_time" [("success", "false")] (Body rsp0).
Proof.
  intros Hok Hh Hst Hc Hx.
  destruct (scrape_InjectorRqTime _ _ _ _ Hok Hh Hst Hc)
    as (rsp0 & w0 & HS0 & Hv0 & Hok0 & Hh0 & Hst0 & Hc0).
  destruct (Observe_first _ _ _ _ "true" (3#10) Hok0 Hh0 Hst0 Hc0 Hx)
    as (o & w1 & w2 & HW & HO & Hok2 & Hh2 & Hst2 & Hc2).
  destruct (scrape_InjectorRqTime _ _ _ _ Hok2 Hh2 Hst2 Hc2)
    as (rsp & w3 & HS & Hv & _).
  exists rsp0, w0, o, w1, w2, rsp, w3. split_and!; [done..| |].
  - rewrite Hv. simpl. rewrite lookup_insert_eq. reflexivity.
  - rewrite Hv, Hv0. simpl. by rewrite lookup_insert_ne.
Qed.

Lemma counter_scrape_increments_witness :
  store_ok default_ms w_serving
  ∧ handler_ok default_ms default_handler w_serving
  ∧ started default_ms w_serving
  ∧ ∃ rsp1 w1 w2 rsp2 w3 v1 v2,
      ServeHTTP default_handler w_serving = Ok rsp1 w1
      ∧ Inc_times (K8sAPIEventCounter default_ms) 3 w1 = Ok tt w2
      ∧ ServeHTTP default_handler w2 = Ok rsp2 w3
      ∧ sample "osm_k8s_api_event_count" [] (Body rsp1) = Some (VCounter v1)
      ∧ sample "osm_k8s_api_event_count" [] (Body rsp2) = Some (VCounter v2)
      ∧ (v2 == v1 + inject_Z (Z.of_nat 3))%Q.
Proof.
  split; [apply store_ok_serving|]. split; [apply handler_ok_serving|].
  split; [apply started_serving|].
  apply (counter_scrape_increments default_ms default_handler w_serving 3).
  - apply store_ok_serving.
  - apply handler_ok_serving.
  - apply started_serving.
Defined.

Lemma gauge_last_write_wins_witness :
  store_ok default_ms w_serving
  ∧ handler_ok default_ms default_handler w_serving
  ∧ started default_ms w_serving
  ∧ (∀ v, ∃ w1 rsp w2,
       Gauge_Set (ProxyConnectCount default_ms) v w_serving = Ok tt w1
       ∧ ServeHTTP default_handler w1 = Ok rsp w2
       ∧ sample "osm_proxy_connect_count" [] (Body rsp) = Some (VGauge v))
  ∧ (∀ v1 v2, ∃ w1 w2 rsp w3,
       Gauge_Set (ProxyConnectCount default_ms) v1 w_serving = Ok tt w1
       ∧ Gauge_Set (ProxyConnectCount default_ms) v2 w1 = Ok tt w2
       ∧ ServeHTTP default_handler w2 = Ok rsp w3
       ∧ sample "osm_proxy_connect_count" [] (Body rsp) = Some (VGauge v2)).
Proof.
  split; [apply store_ok_serving|]. split; [apply handler_ok_serving|].
  split; [apply started_serving|].
  apply (gauge_last_write_wins default_ms default_handler w_serving).
  - apply store_ok_serving.
  - apply handler_ok_serving.
  - apply started_serving.
Defined.

Lemma InjectorRqTime_serving :
  heap w_serving !! InjectorRqTime default_ms =
    Some (CHistogramVec {| hv_desc := rqtime_desc;
                           hv_upperBounds := InjectorRqTime_Buckets;
                           hv_children := ∅ |}).
Proof. vm_compute. reflexivity. Qed.

Lemma observe_true_partition_witness :
  store_ok default_ms w_serving
  ∧ handler_ok default_ms default_handler w_serving
  ∧ started default_ms w_serving
  ∧ ∃ rsp0 w0 o w1 w2 rsp w3,
      ServeHTTP default_handler w_serving = Ok rsp0 w0
      ∧ HistogramVec_WithLabelValues (InjectorRqTime default_ms) ["true"] w0
        = Ok o w1
      ∧ Observe o (3#10) w1 = Ok tt w2
      ∧ ServeHTTP default_handler w2 = Ok rsp w3
      ∧ sample "osm_injector_injector_rq_time" [("success", "true")] (Body rsp)
        = Some (VHistogram 1 (3#10)
                  [ {| CumulativeCount := 0; UpperBound := 1#10 |};
                    {| CumulativeCount := 0; UpperBound := 25#100 |};
                    {| CumulativeCount := 1; UpperBound := 5#10 |};
                    {| CumulativeCount := 1; UpperBound := 1 |};
                    {| CumulativeCount := 1; UpperBound := 25#10 |};
                    {| CumulativeCount := 1; UpperBound := 5 |};
                    {| CumulativeCount := 1; UpperBound := 10 |};
                    {| CumulativeCount := 1; UpperBound := 20 |};
                    {| CumulativeCount := 1; UpperBound := 40 |} ])
      ∧ sample "osm_injector_injector_rq_time" [("success", "false")] (Body rsp)
        = sample "osm_injector_injector_rq_time" [("success", "false")] (Body rsp0).
Proof.
  split; [apply store_ok_serving|]. split; [apply handler_ok_serving|].
  split; [apply started_serving|].
  apply (observe_true_partition default_ms default_handler w_serving
           {| hv_desc := rqtime_desc;
              hv_upperBounds := InjectorRqTime_Buckets;
              hv_children := ∅ |}).
  - apply store_ok_serving.
  - apply handler_ok_serving.
  - apply started_serving.
  - apply InjectorRqTime_serving.
  - reflexivity.
Defined.

(* ===================================================================== *)
(** * Further properties of [Start], [Stop], [Handler] and [init]        *)
(* ===================================================================== *)

(** ** [Start] *)

Lemma accepts_reg_add_other reg c d d' :
  accepts reg d' → fqName d' ≠ fqName d → accepts (reg_add reg c d) d'.
Proof.
  unfold accepts, reg_add, desc_id. simpl. intros (He & Hd & Hc & Hdim) Hne.
  rewrite !lookup_insert_ne by done. split_and!; try done.
  intros Hin. apply elem_of_union in Hin as [Hin|Hin]; [|done].
  by apply elem_of_singleton in Hin.
Qed.

Lemma Start_accepted ms w reg :
  store_ok ms w → regs w !! registry ms = Some reg →
  accepts reg k8s_desc → accepts reg proxy_desc →
  accepts reg sidecar_desc → accepts reg rqtime_desc →
  Start ms w =
    Ok tt (set_reg w (registry ms)
             (reg_add (reg_add (reg_add (reg_add reg
                (K8sAPIEventCounter ms) k8s_desc)
                (ProxyConnectCount ms) proxy_desc)
                (InjectorSidecarCount ms) sidecar_desc)
                (InjectorRqTime ms) rqtime_desc)).
Proof.
  intros [(k1 & E1 & D1) (k2 & E2 & D2) (k3 & E3 & D3) (k4 & E4 & D4 & _) _]
    Hr A1 A2 A3 A4.
  pose proof (Start_spec ms w reg (CCounter k1) (CGauge k2) (CCounter k3)
                (CHistogramVec k4) Hr E1 E2 E3 E4) as HS.
  simpl in HS. rewrite D1, D2, D3, D4 in HS. apply HS.
  - done.
  - by apply accepts_reg_add_other.
  - by do 2 (apply accepts_reg_add_other; [|done]).
  - by do 3 (apply accepts_reg_add_other; [|done]).
Qed.

(** X1. [Start] succeeds on every constructed store whose registry accepts
    the four descriptors, as the empty registry of [init] and the registry
    that [Stop] leaves do: it returns without panic, the four instruments
    are then registered under their names, and no instrument value has
    changed. *)
Theorem Start_succeeds (ms : MetricsStore) (w : World) (reg : Registry) :
  store_ok ms w → regs w !! registry ms = Some reg →
  accepts reg k8s_desc → accepts reg proxy_desc →
  accepts reg sidecar_desc → accepts reg rqtime_desc →
  ∃ w1, Start ms w = Ok tt w1
    ∧ started ms w1 ∧ store_ok ms w1 ∧ heap w1 = heap w.
Proof.
  intros Hok Hr A1 A2 A3 A4.
  pose proof (Start_accepted _ _ _ Hok Hr A1 A2 A3 A4) as HS.
  eexists. split; [exact HS|].
  destruct (Start_started _ _ _ Hok HS) as (? & ? & ?). done.
Qed.

Lemma accepts_empty d :
  err d = None →
  accepts {| collectorsByID := ∅; descIDs := ∅; dimHashesByName := ∅ |} d.
Proof.
  intros He. unfold accepts. simpl. rewrite !lookup_empty.
  split_and!; [done| |done|by left]. apply not_elem_of_empty.
Qed.

Lemma regs_init :
  regs w_init !! registry default_ms =
    Some {| collectorsByID := ∅; descIDs := ∅; dimHashesByName := ∅ |}.
Proof. vm_compute. reflexivity. Qed.

Lemma Start_succeeds_witness :
  store_ok default_ms w_init
  ∧ ∃ w1, Start default_ms w_init = Ok tt w1
      ∧ started default_ms w1 ∧ store_ok default_ms w1
      ∧ heap w1 = heap w_init.
Proof.
  split; [apply store_ok_init|].
  apply (Start_succeeds default_ms w_init
           {| collectorsByID := ∅; descIDs := ∅; dimHashesByName := ∅ |}).
  - apply store_ok_init.
  - apply regs_init.
  - apply accepts_empty. reflexivity.
  - apply accepts_empty. reflexivity.
  - apply accepts_empty. reflexivity.
  - apply accepts_empty. reflexivity.
Defined.

(** X2. [Start] is not atomic.  On a constructed store where the proxy
    gauge is registered already and the K8s event counter is acceptable,
    [Start] registers the event counter, then panics on the proxy gauge
    with the already-registered error: the panic leaves the event counter
    registered and the two injector instruments unregistered. *)
Theorem Start_panics_half_way (ms : MetricsStore) (w : World) (reg : Registry) :
  store_ok ms w → regs w !! registry ms = Some reg →
  accepts reg k8s_desc →
  collectorsByID reg !! fqName proxy_desc = Some (ProxyConnectCount ms) →
  Start ms w =
    Panic (AlreadyRegisteredError (ProxyConnectCount ms) (ProxyConnectCount ms))
          (set_reg w (registry ms)
             (reg_add reg (K8sAPIEventCounter ms) k8s_desc))
  ∧ collectorsByID (reg_add reg (K8sAPIEventCounter ms) k8s_desc)
      !! fqName k8s_desc = Some (K8sAPIEventCounter ms)
  ∧ collectorsByID (reg_add reg (K8sAPIEventCounter ms) k8s_desc)
      !! fqName sidecar_desc = collectorsByID reg !! fqName sidecar_desc
  ∧ collectorsByID (reg_add reg (K8sAPIEventCounter ms) k8s_desc)
      !! fqName rqtime_desc = collectorsByID reg !! fqName rqtime_desc.
Proof.
  intros Hok Hr A1 Hp.
  pose proof Hok as [(k1 & E1 & D1) (k2 & E2 & D2) _ _ (reg' & Hr' & Hwf)].
  assert (reg' = reg) as -> by congruence.
  destruct (Hwf _ _ Hp) as (c & Hc & _ & Hdim).
  assert (c = CGauge k2) as -> by congruence. simpl in Hdim. rewrite D2 in Hdim.
  split_and!.
  - unfold Start. munfold.
    rewrite (MustRegister_accepts _ _ _ reg (CCounter k1)) by (simpl; rewrite ?D1; done).
    erewrite MustRegister_eq; [|apply regs_set_reg|exact E2].
    simpl. rewrite D1, D2.
    erewrite registry_register_existing; [done|done|..].
    + unfold reg_add; simpl. by rewrite lookup_insert_ne.
    + unfold reg_add, desc_id; simpl. by rewrite lookup_insert_ne.
  - unfold reg_add, desc_id; simpl. apply lookup_insert_eq.
  - unfold reg_add, desc_id; simpl. by rewrite lookup_insert_ne.
  - unfold reg_add, desc_id; simpl. by rewrite lookup_insert_ne.
Qed.

Lemma w_proxy_only_eq :
  w_proxy_only =
    set_reg w_init (registry default_ms)
      (reg_add {| collectorsByID := ∅; descIDs := ∅; dimHashesByName := ∅ |}
         (ProxyConnectCount default_ms) proxy_desc).
Proof. vm_compute. reflexivity. Qed.

Lemma store_ok_proxy_only : store_ok default_ms w_proxy_only.
Proof.
  rewrite w_proxy_only_eq. apply store_ok_set_reg; [apply store_ok_init|].
  apply (registry_wf_add _ _ _ (CGauge {| g_desc := proxy_desc; g_valBits := 0 |})).
  - intros id l Hid. simpl in Hid. by rewrite lookup_empty in Hid.
  - vm_compute. reflexivity.
  - apply accepts_empty. reflexivity.
Qed.

Lemma Start_panics_half_way_witness :
  let reg := reg_add {| collectorsByID := ∅; descIDs := ∅; dimHashesByName := ∅ |}
               (ProxyConnectCount default_ms) proxy_desc in
  store_ok default_ms w_proxy_only
  ∧ regs w_proxy_only !! registry default_ms = Some reg
  ∧ Start default_ms w_proxy_only =
      Panic (AlreadyRegisteredError (ProxyConnectCount default_ms)
                                    (ProxyConnectCount default_ms))
            (set_reg w_proxy_only (registry default_ms)
               (reg_add reg (K8sAPIEventCounter default_ms) k8s_desc))
  ∧ collectorsByID (reg_add reg (K8sAPIEventCounter default_ms) k8s_desc)
      !! fqName k8s_desc = Some (K8sAPIEventCounter default_ms)
  ∧ collectorsByID (reg_add reg (K8sAPIEventCounter default_ms) k8s_desc)
      !! fqName sidecar_desc = collectorsByID reg !! fqName sidecar_desc
  ∧ collectorsByID (reg_add reg (K8sAPIEventCounter default_ms) k8s_desc)
      !! fqName rqtime_desc = collectorsByID reg !! fqName rqtime_desc.
Proof.
  intros reg.
  assert (regs w_proxy_only !! registry default_ms = Some reg) as Hr.
  { rewrite w_proxy_only_eq. apply regs_set_reg. }
  split; [apply store_ok_proxy_only|]. split; [exact Hr|].
  apply (Start_panics_half_way default_ms w_proxy_only reg).
  - apply store_ok_proxy_only.
  - exact Hr.
  - apply accepts_reg_add_other; [apply accepts_empty; reflexivity|done].
  - apply lookup_insert_eq.
Defined.

(** ** [Stop] *)

Lemma Stop_absent ms w reg :
  store_ok ms w → regs w !! registry ms = Some reg →
  collectorsByID reg !! fqName k8s_desc = None →
  collectorsByID reg !! fqName proxy_desc = None →
  collectorsByID reg !! fqName sidecar_desc = None →
  collectorsByID reg !! fqName rqtime_desc = None →
  Stop ms w = Ok tt w.
Proof.
  intros Hok Hr N1 N2 N3 N4.
  pose proof Hok as [(k1 & E1 & D1) (k2 & E2 & D2) (k3 & E3 & D3)
                     (k4 & E4 & D4 & _) _].
  erewrite Stop_spec by done. simpl. rewrite D1, D2, D3, D4.
  rewrite (reg_remove_absent reg k8s_desc) by exact N1.
  rewrite (reg_remove_absent reg proxy_desc) by exact N2.
  rewrite (reg_remove_absent reg sidecar_desc) by exact N3.
  rewrite (reg_remove_absent reg rqtime_desc) by exact N4.
  by rewrite set_reg_id.
Qed.

(** X3. [Stop] on a constructed store none of whose four instruments is
    registered, for instance before any [Start], returns and changes
    nothing at all: neither the registry nor any instrument. *)
Theorem Stop_without_Start (ms : MetricsStore) (w : World) (reg : Registry) :
  store_ok ms w → regs w !! registry ms = Some reg →
  collectorsByID reg !! fqName k8s_desc = None →
  collectorsByID reg !! fqName proxy_desc = None →
  collectorsByID reg !! fqName sidecar_desc = None →
  collectorsByID reg !! fqName rqtime_desc = None →
  Stop ms w = Ok tt w.
Proof. apply Stop_absent. Qed.

Lemma Stop_without_Start_witness :
  store_ok default_ms w_init
  ∧ Stop default_ms w_init = Ok tt w_init.
Proof.
  split; [apply store_ok_init|].
  apply (Stop_without_Start default_ms w_init
           {| collectorsByID := ∅; descIDs := ∅; dimHashesByName := ∅ |}).
  - apply store_ok_init.
  - apply regs_init.
  - apply lookup_empty.
  - apply lookup_empty.
  - apply lookup_empty.
  - apply lookup_empty.
Defined.

(** X4. [Stop] is idempotent on a constructed store: a second [Stop] right
    after the first returns and leaves the store exactly as the first
    did. *)
Theorem Stop_twice (ms : MetricsStore) (w w1 : World) :
  store_ok ms w → Stop ms w = Ok tt w1 → Stop ms w1 = Ok tt w1.
Proof.
  intros Hok HT.
  destruct (Stop_stopped _ _ _ Hok HT)
    as (Hok1 & _ & reg1 & Hr1 & N1 & N2 & N3 & N4).
  by apply (Stop_absent ms w1 reg1).
Qed.

Lemma Stop_twice_witness :
  store_ok default_ms w_started
  ∧ Stop default_ms w_started = Ok tt w_stopped
  ∧ Stop default_ms w_stopped = Ok tt w_stopped.
Proof.
  split; [apply store_ok_started|]. split; [apply Stop_default|].
  apply (Stop_twice default_ms w_started w_stopped).
  - apply store_ok_started.
  - apply Stop_default.
Defined.

(** X5. [Stop] undoes the registrations of [Start]: on every store, after
    a successful [Start] followed by [Stop], the instruments are untouched
    and the registry has the members and identities it had before
    [Start]. *)
Theorem Start_then_Stop_restores_members (ms : MetricsStore) (w w1 w2 : World) :
  Start ms w = Ok tt w1 →
  Stop ms w1 = Ok tt w2 →
  heap w2 = heap w
  ∧ ∃ reg reg2,
      regs w !! registry ms = Some reg
      ∧ regs w2 = <[registry ms := reg2]> (regs w)
      ∧ collectorsByID reg2 = collectorsByID reg
      ∧ descIDs reg2 = descIDs reg.
Proof.
  intros HS HT.
  apply Start_Ok in HS
    as (reg & c1 & c2 & c3 & c4 & Hr & H1 & H2 & H3 & H4 & A1 & A2 & A3 & A4 & ->).
  erewrite Stop_spec in HT; [|apply regs_set_reg|exact H1|exact H2|exact H3|exact H4].
  injection HT as <-. rewrite set_reg_set_reg.
  rewrite stop_after_start by assumption.
  split; [done|]. eexists reg, _. split_and!; [done|reflexivity|done..].
Qed.

Lemma Start_then_Stop_restores_members_witness :
  Start default_ms w_init = Ok tt w_started
  ∧ Stop default_ms w_started = Ok tt w_stopped
  ∧ heap w_stopped = heap w_init
  ∧ ∃ reg reg2,
      regs w_init !! registry default_ms = Some reg
      ∧ regs w_stopped = <[registry default_ms := reg2]> (regs w_init)
      ∧ collectorsByID reg2 = collectorsByID reg
      ∧ descIDs reg2 = descIDs reg.
Proof.
  split; [apply Start_default|]. split; [apply Stop_default|].
  apply (Start_then_Stop_restores_members default_ms w_init w_started w_stopped).
  - apply Start_default.
  - apply Stop_default.
Defined.

(** X6. [Stop] removes the four instruments and nothing else: every other
    member of the store's registry, such as the two collectors of the
    handler, stays registered, and other registries are not touched. *)
Theorem Stop_keeps_other_members (ms : MetricsStore) (w w1 : World)
    (reg : Registry) :
  store_ok ms w → regs w !! registry ms = Some reg →
  Stop ms w = Ok tt w1 →
  (∃ reg1, regs w1 !! registry ms = Some reg1
     ∧ ∀ n, n ≠ "osm_k8s_api_event_count" → n ≠ "osm_proxy_connect_count" →
            n ≠ "osm_injector_injector_sidecar_count" →
            n ≠ "osm_injector_injector_rq_time" →
            collectorsByID reg1 !! n = collectorsByID reg !! n)
  ∧ ∀ r, r ≠ registry ms → regs w1 !! r = regs w !! r.
Proof.
  intros Hok Hr HT.
  pose proof Hok as [(k1 & E1 & D1) (k2 & E2 & D2) (k3 & E3 & D3)
                     (k4 & E4 & D4 & _) _].
  erewrite Stop_spec in HT by done. injection HT as <-. split.
  - eexists. split; [apply regs_set_reg|].
    intros n N1 N2 N3 N4. simpl. rewrite !reg_remove_lookup.
    unfold desc_id. rewrite D1, D2, D3, D4.
    repeat case_decide; try done; by subst n.
  - intros r Hne. simpl. by rewrite lookup_insert_ne.
Qed.

Lemma Stop_serving : Stop default_ms w_serving = Ok tt w_serving_stopped.
Proof. vm_compute. reflexivity. Qed.

Lemma Stop_keeps_other_members_witness :
  store_ok default_ms w_serving
  ∧ ∃ reg, regs w_serving !! registry default_ms = Some reg
      ∧ Stop default_ms w_serving = Ok tt w_serving_stopped
      ∧ (∃ reg1, regs w_serving_stopped !! registry default_ms = Some reg1
           ∧ ∀ n, n ≠ "osm_k8s_api_event_count" →
                  n ≠ "osm_proxy_connect_count" →
                  n ≠ "osm_injector_injector_sidecar_count" →
                  n ≠ "osm_injector_injector_rq_time" →
                  collectorsByID reg1 !! n = collectorsByID reg !! n)
      ∧ ∀ r, r ≠ registry default_ms →
             regs w_serving_stopped !! r = regs w_serving !! r.
Proof.
  split; [apply store_ok_serving|].
  destruct (ok_registry _ _ store_ok_serving) as (reg & Hr & _).
  exists reg. split; [exact Hr|]. split; [apply Stop_serving|].
  apply (Stop_keeps_other_members default_ms w_serving w_serving_stopped reg).
  - apply store_ok_serving.
  - exact Hr.
  - apply Stop_serving.
Defined.



(** ** [Handler] *)

Lemma register_or_existing_existing r c is_kind w reg col existing col' :
  regs w !! r = Some reg → heap w !! c = Some col →
  err (Describe col) = None →
  dimHashesByName reg !! fqName (Describe col) = Some (dimHash (Describe col)) →
  collectorsByID reg !! desc_id (Describe col) = Some existing →
  heap w !! existing = Some col' → is_kind col' = true →
  register_or_existing r c is_kind w = Ok existing w.
Proof.
  intros Hr Hc He Hdim Hex Hcol' Hk.
  unfold register_or_existing, Register, load_reg, load. munfold.
  rewrite Hr, Hc. rewrite (registry_register_existing _ _ _ existing) by done.
  simpl. by rewrite Hcol', Hk.
Qed.

Lemma register_fresh_registered ms w l0 c0 is_kind l w' :
  store_ok ms w → heap w !! l0 = None →
  register_or_existing (registry ms) l0 is_kind (upd w l0 c0) = Ok l w' →
  err (Describe c0) = None
  ∧ ∃ reg', regs w' !! registry ms = Some reg'
      ∧ collectorsByID reg' !! fqName (Describe c0) = Some l.
Proof.
  intros Hok Hfresh H.
  destruct (store_ok_alloc ms w l0 c0 Hok Hfresh) as [_ _ _ _ (reg & Hr & Hwf)].
  unfold register_or_existing, Register, load_reg, load in H. munfold.
  rewrite Hr in H. simpl in H. rewrite lookup_insert_eq in H.
  destruct (registry_register reg l0 (Describe c0)) as [reg'|e] eqn:Hreg;
    simpl in H.
  - apply registry_register_inl in Hreg as [(He & _) ->].
    injection H as <- <-. split; [done|].
    eexists. split; [apply regs_set_reg|]. apply lookup_insert_eq.
  - destruct e as [| | |existing new| | | |]; try done.
    assert (err (Describe c0) = None) as He.
    { unfold registry_register in Hreg. by destruct (err (Describe c0)). }
    apply registry_register_inr_existing in Hreg as [Hex _].
    destruct (Hwf _ _ Hex) as (col & Hcol & _).
    rewrite Hcol in H. destruct (is_kind col); [|done].
    injection H as <- <-. split; [done|]. by exists reg.
Qed.

(** The registry after [Handler] has the two collectors of the handler
    under their names, with the label dimensions that
    [InstrumentMetricHandler] declares. *)
Lemma Handler_registered ms w h w' :
  store_ok ms w → Handler ms w = Ok h w' →
  ∃ cnt gge cv g reg',
    h = InstrumentHandlerCounter cnt
          (InstrumentHandlerInFlight gge (HandlerFor (registry ms)))
    ∧ heap w' !! cnt = Some (CCounterVec cv)
    ∧ dimHash (cv_desc cv) = dimHash (desc_of_opts requests_total_opts ["code"])
    ∧ heap w' !! gge = Some (CGauge g)
    ∧ dimHash (g_desc g) = dimHash (desc_of_opts requests_in_flight_opts [])
    ∧ regs w' !! registry ms = Some reg'
    ∧ collectorsByID reg' !! "promhttp_metric_handler_requests_total" = Some cnt
    ∧ collectorsByID reg' !! "promhttp_metric_handler_requests_in_flight"
      = Some gge.
Proof.
  intros Hok H. unfold Handler, InstrumentMetricHandler in H.
  unfold NewCounterVec, NewGauge, alloc in H. munfold.
  set (l0 := fresh (dom (heap w))) in *.
  assert (heap w !! l0 = None) as Hl0 by apply fresh_heap.
  fold (upd w l0 (CCounterVec
    {| cv_desc := desc_of_opts requests_total_opts ["code"]; cv_children := ∅ |})) in H.
  erewrite CounterVec_WithLabelValues_new in H;
    [|apply lookup_insert_eq|done|done].
  rewrite upd_upd in H.
  erewrite CounterVec_WithLabelValues_new in H;
    [|apply lookup_insert_eq|done|done].
  rewrite upd_upd in H.
  erewrite CounterVec_WithLabelValues_new in H;
    [|apply lookup_insert_eq|done|done].
  rewrite upd_upd in H. simpl in H.
  match type of H with
  | match register_or_existing _ _ _ (upd _ _ ?c) with _ => _ end = _ =>
      set (c0 := c) in *
  end.
  destruct (register_or_existing _ l0 _ _) as [cnt wa|] eqn:E1; [|done].
  pose proof (register_fresh_registered ms w l0 c0 _ _ _ Hok Hl0 E1)
    as (_ & rega0 & Hra0 & Hcnt0).
  apply (register_fresh_spec ms w l0 c0) in E1
    as (Hoka & Hha & (col1 & Hcnt & Hk1 & Hn1 & Hd1) & _); [|done..].
  set (l1 := fresh (dom (heap wa))) in *.
  assert (heap wa !! l1 = None) as Hl1 by apply fresh_heap.
  match type of H with
  | match register_or_existing _ _ _ ?w1 with _ => _ end = _ =>
      change w1 with
        (upd wa l1 (CGauge {| g_desc := desc_of_opts requests_in_flight_opts [];
                              g_valBits := 0 |})) in H
  end.
  destruct (register_or_existing _ l1 _ _) as [gge wb|] eqn:E2; [|done].
  pose proof (register_fresh_registered ms wa l1 _ _ _ _ Hoka Hl1 E2)
    as (_ & regb & Hrb & Hgge0).
  apply (register_fresh_spec ms wa l1) in E2
    as (Hokb & Hhb & (col2 & Hgge & Hk2 & Hn2 & Hd2)
        & (rega' & regb' & Hra' & Hrb' & Hcbi2)); [|done..].
  injection H as <- <-.
  destruct col1 as [| | |cv]; try done. destruct col2 as [|g| |]; try done.
  assert (cnt ≠ l1) as Hne1 by (intros ->; congruence).
  assert (rega' = rega0) as -> by congruence.
  assert (regb' = regb) as -> by congruence.
  exists cnt, gge, cv, g, regb. split_and!; try done.
  - rewrite Hhb. by rewrite lookup_insert_ne.
  - rewrite Hcbi2 by done. exact Hcnt0.
Qed.

(** X8. [Handler] may be called again: after a first successful call on a
    constructed store, a second call does not panic, returns the same
    handler (the same request counter and in-flight gauge, so that the
    handlers count together) and leaves the registry and every existing
    object as they were. *)
Theorem Handler_twice (ms : MetricsStore) (w : World) (h : promhttp.Handler)
    (w1 : World) :
  store_ok ms w → Handler ms w = Ok h w1 →
  ∃ w2, Handler ms w1 = Ok h w2
    ∧ regs w2 = regs w1
    ∧ (∀ l c, heap w1 !! l = Some c → heap w2 !! l = Some c)
    ∧ store_ok ms w2 ∧ handler_ok ms h w2.
Proof.
  intros Hok HH.
  destruct (Handler_spec _ _ _ _ Hok HH) as (Hok1 & Hh1 & _).
  destruct (Handler_registered _ _ _ _ Hok HH)
    as (cnt & gge & cv & g & reg1 & -> & Hcnt & Dcv & Hgge & Dg & Hr1 & Rc & Rg).
  pose proof Hok1 as [_ _ _ _ (reg1' & Hr1' & Hwf)].
  assert (reg1' = reg1) as -> by congruence.
  destruct (Hwf _ _ Rc) as (c & Hc & _ & Kc).
  assert (c = CCounterVec cv) as -> by congruence. simpl in Kc.
  destruct (Hwf _ _ Rg) as (c & Hc' & _ & Kg).
  assert (c = CGauge g) as -> by congruence. simpl in Kg. clear Hc Hc'.
  assert (fqName (cv_desc cv)
          = fqName (desc_of_opts requests_total_opts ["code"])) as Fc.
  { destruct (Hwf _ _ Rc) as (c & Hc & Hid & _).
    assert (c = CCounterVec cv) as -> by congruence. exact Hid. }
  assert (fqName (g_desc g)
          = fqName (desc_of_opts requests_in_flight_opts [])) as Fg.
  { destruct (Hwf _ _ Rg) as (c & Hc & Hid & _).
    assert (c = CGauge g) as -> by congruence. exact Hid. }
  rewrite Fc, Dcv in Kc. rewrite Fg, Dg in Kg.
  unfold Handler, InstrumentMetricHandler.
  unfold NewCounterVec, NewGauge, alloc. munfold.
  set (l0 := fresh (dom (heap w1))).
  assert (heap w1 !! l0 = None) as Hl0 by apply fresh_heap.
  fold (upd w1 l0 (CCounterVec
    {| cv_desc := desc_of_opts requests_total_opts ["code"]; cv_children := ∅ |})).
  erewrite CounterVec_WithLabelValues_new;
    [|apply lookup_insert_eq|done|done].
  rewrite upd_upd.
  erewrite CounterVec_WithLabelValues_new;
    [|apply lookup_insert_eq|done|done].
  rewrite upd_upd.
  erewrite CounterVec_WithLabelValues_new;
    [|apply lookup_insert_eq|done|done].
  rewrite upd_upd. simpl.
  match goal with
  | |- context [register_or_existing _ l0 _ (upd _ _ ?c)] => set (c0 := c)
  end.
  assert (cnt ≠ l0) as Hn0 by (intros ->; congruence).
  rewrite (register_or_existing_existing (registry ms) l0 is_CounterVec
             (upd w1 l0 c0) reg1 c0 cnt (CCounterVec cv)); try done;
    [|apply lookup_insert_eq|simpl; by rewrite lookup_insert_ne].
  set (wa := upd w1 l0 c0).
  set (l1 := fresh (dom (heap wa))).
  assert (heap wa !! l1 = None) as Hl1 by apply fresh_heap.
  set (g0 := CGauge {| g_desc := desc_of_opts requests_in_flight_opts [];
                       g_valBits := 0 |}).
  change {| heap := <[l1 := g0]> (heap wa); regs := regs wa |}
    with (upd wa l1 g0).
  assert (heap wa !! gge = Some (CGauge g)) as Hgge'.
  { unfold wa. simpl. rewrite lookup_insert_ne; [done|]. intros ->. congruence. }
  assert (gge ≠ l1) as Hn1 by (intros ->; congruence).
  rewrite (register_or_existing_existing (registry ms) l1 is_Gauge
             (upd wa l1 g0) reg1 g0 gge (CGauge g)); try done;
    [|apply lookup_insert_eq|simpl; by rewrite lookup_insert_ne].
  eexists. split; [reflexivity|]. split_and!.
  - done.
  - intros l c Hl. simpl.
    rewrite !lookup_insert_ne; [done|intros ->; congruence|].
    intros ->. unfold wa in Hl1. simpl in Hl1.
    rewrite lookup_insert_ne in Hl1 by (intros ->; by rewrite lookup_insert_eq in Hl1).
    congruence.
  - apply store_ok_alloc; [|done]. by apply store_ok_alloc.
  - apply handler_ok_alloc; [|done]. by apply handler_ok_alloc.
Qed.

Lemma Handler_twice_witness :
  store_ok default_ms w_started
  ∧ Handler default_ms w_started = Ok default_handler w_serving
  ∧ ∃ w2, Handler default_ms w_serving = Ok default_handler w2
      ∧ regs w2 = regs w_serving
      ∧ (∀ l c, heap w_serving !! l = Some c → heap w2 !! l = Some c)
      ∧ store_ok default_ms w2 ∧ handler_ok default_ms default_handler w2.
Proof.
  split; [apply store_ok_started|]. split; [apply Handler_default|].
  apply (Handler_twice default_ms w_started default_handler w_serving).
  - apply store_ok_started.
  - apply Handler_default.
Defined.

(** ** The plain instruments in a scrape *)

(** The families of the three plain instruments in a scrape of a started
    store, with the name, help and type that [init] declares. *)
Lemma scrape_plain ms h w c1 g2 c3 :
  store_ok ms w → handler_ok ms h w → started ms w →
  heap w !! K8sAPIEventCounter ms = Some (CCounter c1) →
  heap w !! ProxyConnectCount ms = Some (CGauge g2) →
  heap w !! InjectorSidecarCount ms = Some (CCounter c3) →
  ∃ rsp w', ServeHTTP h w = Ok rsp w'
    ∧ family "osm_k8s_api_event_count" (Body rsp)
      = Some {| mf_Name := "osm_k8s_api_event_count";
                mf_Help := "represents the number of events received from the Kubernetes API Server";
                mf_Type := COUNTER;
                mf_Metric := [ {| Label := []; Value := VCounter (Counter_get c1) |} ] |}
    ∧ family "osm_proxy_connect_count" (Body rsp)
      = Some {| mf_Name := "osm_proxy_connect_count";
                mf_Help := "represents the number of proxies connected to OSM controller";
                mf_Type := GAUGE;
                mf_Metric := [ {| Label := []; Value := VGauge (g_valBits g2) |} ] |}
    ∧ family "osm_injector_injector_sidecar_count" (Body rsp)
      = Some {| mf_Name := "osm_injector_injector_sidecar_count";
                mf_Help := "Counts the number of injector webhooks dealt with over time";
                mf_Type := COUNTER;
                mf_Metric := [ {| Label := []; Value := VCounter (Counter_get c3) |} ] |}.
Proof.
  intros Hok Hh Hst H1 H2 H3.
  pose proof Hst as (reg & Hr & S1 & S2 & S3 & _).
  destruct (scrape_spec _ _ _ Hok Hh)
    as (rsp & w' & reg' & hs & HS & Hr' & _ & HB & Hwf & Hfr & (F1 & F2 & F3 & _) & _).
  assert (reg' = reg) as -> by congruence.
  destruct (Hfr _ F1) as [G1 _], (Hfr _ F2) as [G2 _], (Hfr _ F3) as [G3 _].
  rewrite H1 in G1. rewrite H2 in G2. rewrite H3 in G3.
  destruct Hok as [(k1 & E1 & D1) (k2 & E2 & D2) (k3 & E3 & D3) _ _].
  assert (k1 = c1) as -> by congruence.
  assert (k2 = g2) as -> by congruence.
  assert (k3 = c3) as -> by congruence.
  exists rsp, w'. split; [done|]. rewrite HB. split_and!.
  - assert (Collect (CCounter c1) ≠ []) as Hne by done.
    pose proof (gather_family hs reg _ _ (CCounter c1) Hwf S1 G1 Hne) as Hf.
    simpl in Hf. rewrite D1 in Hf. exact Hf.
  - assert (Collect (CGauge g2) ≠ []) as Hne by done.
    pose proof (gather_family hs reg _ _ (CGauge g2) Hwf S2 G2 Hne) as Hf.
    simpl in Hf. rewrite D2 in Hf. exact Hf.
  - assert (Collect (CCounter c3) ≠ []) as Hne by done.
    pose proof (gather_family hs reg _ _ (CCounter c3) Hwf S3 G3 Hne) as Hf.
    simpl in Hf. rewrite D3 in Hf. exact Hf.
Qed.

(** X9. In every scrape of a started store, each of the three plain
    instruments appears as one family with the name, the help text and the
    type declared in [init], holding a single sample without labels whose
    value is the current value of the instrument. *)
Theorem scrape_families_as_declared (ms : MetricsStore) (h : promhttp.Handler)
    (w : World) (c1 : Counter) (g2 : Gauge) (c3 : Counter) :
  store_ok ms w → handler_ok ms h w → started ms w →
  heap w !! K8sAPIEventCounter ms = Some (CCounter c1) →
  heap w !! ProxyConnectCount ms = Some (CGauge g2) →
  heap w !! InjectorSidecarCount ms = Some (CCounter c3) →
  ∃ rsp w', ServeHTTP h w = Ok rsp w'
    ∧ family "osm_k8s_api_event_count" (Body rsp)
      = Some {| mf_Name := "osm_k8s_api_event_count";
                mf_Help := "represents the number of events received from the Kubernetes API Server";
                mf_Type := COUNTER;
                mf_Metric := [ {| Label := []; Value := VCounter (Counter_get c1) |} ] |}
    ∧ family "osm_proxy_connect_count" (Body rsp)
      = Some {| mf_Name := "osm_proxy_connect_count";
                mf_Help := "represents the number of proxies connected to OSM controller";
                mf_Type := GAUGE;
                mf_Metric := [ {| Label := []; Value := VGauge (g_valBits g2) |} ] |}
    ∧ family "osm_injector_injector_sidecar_count" (Body rsp)
      = Some {| mf_Name := "osm_injector_injector_sidecar_count";
                mf_Help := "Counts the number of injector webhooks dealt with over time";
                mf_Type := COUNTER;
                mf_Metric := [ {| Label := []; Value := VCounter (Counter_get c3) |} ] |}.
Proof. apply scrape_plain. Qed.

Lemma heap_serving_plain :
  heap w_serving !! K8sAPIEventCounter default_ms
    = Some (CCounter {| c_desc := k8s_desc; valInt := 0; valBits := 0 |})
  ∧ heap w_serving !! ProxyConnectCount default_ms
    = Some (CGauge {| g_desc := proxy_desc; g_valBits := 0 |})
  ∧ heap w_serving !! InjectorSidecarCount default_ms
    = Some (CCounter {| c_desc := sidecar_desc; valInt := 0; valBits := 0 |}).
Proof. split_and!; vm_compute; reflexivity. Qed.

Lemma scrape_families_as_declared_witness :
  let c1 := {| c_desc := k8s_desc; valInt := 0; valBits := 0 |} in
  let g2 := {| g_desc := proxy_desc; g_valBits := 0 |} in
  let c3 := {| c_desc := sidecar_desc; valInt := 0; valBits := 0 |} in
  store_ok default_ms w_serving
  ∧ handler_ok default_ms default_handler w_serving
  ∧ started default_ms w_serving
  ∧ ∃ rsp w', ServeHTTP default_handler w_serving = Ok rsp w'
    ∧ family "osm_k8s_api_event_count" (Body rsp)
      = Some {| mf_Name := "osm_k8s_api_event_count";
                mf_Help := "represents the number of events received from the Kubernetes API Server";
                mf_Type := COUNTER;
                mf_Metric := [ {| Label := []; Value := VCounter (Counter_get c1) |} ] |}
    ∧ family "osm_proxy_connect_count" (Body rsp)
      = Some {| mf_Name := "osm_proxy_connect_count";
                mf_Help := "represents the number of proxies connected to OSM controller";
                mf_Type := GAUGE;
                mf_Metric := [ {| Label := []; Value := VGauge (g_valBits g2) |} ] |}
    ∧ family "osm_injector_injector_sidecar_count" (Body rsp)
      = Some {| mf_Name := "osm_injector_injector_sidecar_count";
                mf_Help := "Counts the number of injector webhooks dealt with over time";
                mf_Type := COUNTER;
                mf_Metric := [ {| Label := []; Value := VCounter (Counter_get c3) |} ] |}.
Proof.
  intros c1 g2 c3.
  split; [apply store_ok_serving|]. split; [apply handler_ok_serving|].
  split; [apply started_serving|].
  apply (scrape_families_as_declared default_ms default_handler w_serving c1 g2 c3).
  - apply store_ok_serving.
  - apply handler_ok_serving.
  - apply started_serving.
  - apply heap_serving_plain.
  - apply heap_serving_plain.
  - apply heap_serving_plain.
Defined.

(** X10. The instruments record while the store is not started, and
    [Start] does not reset them: the values that the event counter, the
    proxy gauge and the sidecar counter hold before [Start] are the values
    that the first scrape after [Start] and [Handler] shows. *)
Theorem values_recorded_before_Start (ms : MetricsStore) (w : World)
    (c1 : Counter) (g2 : Gauge) (c3 : Counter) (w1 : World)
    (h : promhttp.Handler) (w2 : World) :
  store_ok ms w →
  heap w !! K8sAPIEventCounter ms = Some (CCounter c1) →
  heap w !! ProxyConnectCount ms = Some (CGauge g2) →
  heap w !! InjectorSidecarCount ms = Some (CCounter c3) →
  Start ms w = Ok tt w1 →
  Handler ms w1 = Ok h w2 →
  ∃ rsp w3, ServeHTTP h w2 = Ok rsp w3
    ∧ sample "osm_k8s_api_event_count" [] (Body rsp)
      = Some (VCounter (Counter_get c1))
    ∧ sample "osm_proxy_connect_count" [] (Body rsp)
      = Some (VGauge (g_valBits g2))
    ∧ sample "osm_injector_injector_sidecar_count" [] (Body rsp)
      = Some (VCounter (Counter_get c3)).
Proof.
  intros Hok H1 H2 H3 HS HH.
  destruct (Start_started _ _ _ Hok HS) as (Hok1 & Hst1 & Hheap1).
  destruct (Handler_spec _ _ _ _ Hok1 HH) as (Hok2 & Hh2 & Hfr & _).
  pose proof (started_Handler _ _ _ _ Hok1 Hst1 HH) as Hst2.
  rewrite Hheap1 in Hfr.
  destruct (scrape_plain _ _ _ c1 g2 c3 Hok2 Hh2 Hst2
              (Hfr _ _ H1) (Hfr _ _ H2) (Hfr _ _ H3))
    as (rsp & w3 & HSv & F1 & F2 & F3).
  exists rsp, w3. split; [done|].
  unfold sample. rewrite F1, F2, F3. done.
Qed.

Lemma store_ok_recorded : store_ok default_ms w_recorded.
Proof.
  split.
  - eexists. split; [by vm_compute|done].
  - eexists. split; [by vm_compute|done].
  - eexists. split; [by vm_compute|done].
  - exists {| hv_desc := rqtime_desc;
              hv_upperBounds := InjectorRqTime_Buckets;
              hv_children := ∅ |}.
    split_and!; [by vm_compute|done..|].
    simpl. intros lvs [x Hx]. by rewrite lookup_empty in Hx.
  - exists {| collectorsByID := ∅; descIDs := ∅; dimHashesByName := ∅ |}.
    split; [by vm_compute|].
    intros id l Hid. simpl in Hid. by rewrite lookup_empty in Hid.
Qed.

Lemma values_recorded_before_Start_witness :
  let c1 := {| c_desc := k8s_desc; valInt := 5; valBits := 0 |} in
  let g2 := {| g_desc := proxy_desc; g_valBits := 7 |} in
  let c3 := {| c_desc := sidecar_desc; valInt := 0; valBits := 0 |} in
  store_ok default_ms w_recorded
  ∧ heap w_recorded !! K8sAPIEventCounter default_ms = Some (CCounter c1)
  ∧ heap w_recorded !! ProxyConnectCount default_ms = Some (CGauge g2)
  ∧ heap w_recorded !! InjectorSidecarCount default_ms = Some (CCounter c3)
  ∧ Start default_ms w_recorded = Ok tt w_recorded_started
  ∧ Handler default_ms w_recorded_started = Ok handler_recorded w_recorded_serving
  ∧ ∃ rsp w3, ServeHTTP handler_recorded w_recorded_serving = Ok rsp w3
      ∧ sample "osm_k8s_api_event_count" [] (Body rsp)
        = Some (VCounter (Counter_get c1))
      ∧ sample "osm_proxy_connect_count" [] (Body rsp)
        = Some (VGauge (g_valBits g2))
      ∧ sample "osm_injector_injector_sidecar_count" [] (Body rsp)
        = Some (VCounter (Counter_get c3)).
Proof.
  intros c1 g2 c3.
  assert (heap w_recorded !! K8sAPIEventCounter default_ms = Some (CCounter c1))
    as H1 by (vm_compute; reflexivity).
  assert (heap w_recorded !! ProxyConnectCount default_ms = Some (CGauge g2))
    as H2 by (vm_compute; reflexivity).
  assert (heap w_recorded !! InjectorSidecarCount default_ms = Some (CCounter c3))
    as H3 by (vm_compute; reflexivity).
  assert (Start default_ms w_recorded = Ok tt w_recorded_started)
    as HS by (vm_compute; reflexivity).
  assert (Handler default_ms w_recorded_started
          = Ok handler_recorded w_recorded_serving)
    as HH by (vm_compute; reflexivity).
  split_and!; [apply store_ok_recorded|done..|].
  apply (values_recorded_before_Start default_ms w_recorded c1 g2 c3
           w_recorded_started handler_recorded w_recorded_serving);
    [apply store_ok_recorded|done..].
Defined.

(** ** The request-time histogram *)









(** ** Independence of the instruments *)

(** X13. The four instruments are separate objects, each registered under
    its own name: any number of increments of the K8s event counter
    between two scrapes of a started store leaves the scraped values of
    the proxy gauge, of the sidecar counter and of every partition of the
    request-time histogram as they were. *)
Theorem event_counter_is_independent (ms : MetricsStore)
    (h : promhttp.Handler) (w : World) (n : nat) :
  store_ok ms w → handler_ok ms h w → started ms w →
  ∃ rsp1 w1 w2 rsp2 w3,
    ServeHTTP h w = Ok rsp1 w1
    ∧ Inc_times (K8sAPIEventCounter ms) n w1 = Ok tt w2
    ∧ ServeHTTP h w2 = Ok rsp2 w3
    ∧ sample "osm_proxy_connect_count" [] (Body rsp2)
      = sample "osm_proxy_connect_count" [] (Body rsp1)
    ∧ sample "osm_injector_injector_sidecar_count" [] (Body rsp2)
      = sample "osm_injector_injector_sidecar_count" [] (Body rsp1)
    ∧ ∀ x, sample "osm_injector_injector_rq_time" [("success", x)] (Body rsp2)
           = sample "osm_injector_injector_rq_time" [("success", x)] (Body rsp1).
Proof.
  intros Hok Hh Hst.
  pose proof Hok as [(c1 & E1 & D1) (g2 & E2 & D2) (c3 & E3 & D3)
                     (hv & E4 & _) _].
  destruct (scrape_spec _ _ _ Hok Hh)
    as (rsp1 & w1 & reg & hs & HS1 & _ & Hregs & _ & _ & Hfr & (F1 & F2 & F3 & F4)
        & Hok1 & Hh1).
  pose proof (started_regs ms w w1 Hregs Hst) as Hst1.
  destruct (Hfr _ F1) as [_ G1], (Hfr _ F2) as [_ G2],
    (Hfr _ F3) as [_ G3], (Hfr _ F4) as [_ G4].
  rewrite E1 in G1. rewrite E2 in G2. rewrite E3 in G3. rewrite E4 in G4.
  destruct (scrape_plain _ _ _ c1 g2 c3 Hok Hh Hst E1 E2 E3)
    as (rsp1' & w1' & HS1' & _ & P2 & P3).
  destruct (scrape_InjectorRqTime _ _ _ _ Hok Hh Hst E4)
    as (rsp1'' & w1'' & HS1'' & P4 & _).
  assert (rsp1' = rsp1) as -> by congruence.
  assert (rsp1'' = rsp1) as -> by congruence.
  pose proof (Inc_times_eq _ n _ _ G1) as HI.
  destruct (Inc_times_ok _ _ _ n _ Hok1 Hh1 Hst1 G1)
    as (w2 & HI' & Hok2 & Hh2 & Hst2 & K1).
  assert (w2 = upd w1 (K8sAPIEventCounter ms)
                 (CCounter {| c_desc := c_desc c1;
                              valInt := valInt c1 + N.of_nat n;
                              valBits := valBits c1 |})) as Hw2 by congruence.
  assert (heap w2 !! ProxyConnectCount ms = Some (CGauge g2)) as K2.
  { rewrite Hw2. simpl. rewrite lookup_insert_ne; [done|]. intros Heq.
    rewrite Heq in G1. congruence. }
  assert (heap w2 !! InjectorSidecarCount ms = Some (CCounter c3)) as K3.
  { rewrite Hw2. simpl.
    destruct (decide (K8sAPIEventCounter ms = InjectorSidecarCount ms)) as [Heq|Hne].
    - rewrite Heq in E1. rewrite E1 in E3. injection E3 as <-.
      rewrite D1 in D3. discriminate D3.
    - by rewrite lookup_insert_ne. }
  assert (heap w2 !! InjectorRqTime ms = Some (CHistogramVec hv)) as K4.
  { rewrite Hw2. simpl. rewrite lookup_insert_ne; [done|]. intros Heq.
    rewrite Heq in G1. congruence. }
  destruct (scrape_plain _ _ _ _ g2 c3 Hok2 Hh2 Hst2 K1 K2 K3)
    as (rsp2 & w3 & HS2 & _ & Q2 & Q3).
  destruct (scrape_InjectorRqTime _ _ _ _ Hok2 Hh2 Hst2 K4)
    as (rsp2' & w3' & HS2' & Q4 & _).
  assert (rsp2' = rsp2) as -> by congruence.
  exists rsp1, w1, w2, rsp2, w3. split_and!; [done..| | |].
  - unfold sample. by rewrite P2, Q2.
  - unfold sample. by rewrite P3, Q3.
  - intros x. by rewrite P4, Q4.
Qed.

Lemma event_counter_is_independent_witness :
  store_ok default_ms w_serving
  ∧ handler_ok default_ms default_handler w_serving
  ∧ started default_ms w_serving
  ∧ ∃ rsp1 w1 w2 rsp2 w3,
      ServeHTTP default_handler w_serving = Ok rsp1 w1
      ∧ Inc_times (K8sAPIEventCounter default_ms) 4 w1 = Ok tt w2
      ∧ ServeHTTP default_handler w2 = Ok rsp2 w3
      ∧ sample "osm_proxy_connect_count" [] (Body rsp2)
        = sample "osm_proxy_connect_count" [] (Body rsp1)
      ∧ sample "osm_injector_injector_sidecar_count" [] (Body rsp2)
        = sample "osm_injector_injector_sidecar_count" [] (Body rsp1)
      ∧ ∀ x, sample "osm_injector_injector_rq_time" [("success", x)] (Body rsp2)
             = sample "osm_injector_injector_rq_time" [("success", x)] (Body rsp1).
Proof.
  split; [apply store_ok_serving|]. split; [apply handler_ok_serving|].
  split; [apply started_serving|].
  apply (event_counter_is_independent default_ms default_handler w_serving 4).
  - apply store_ok_serving.
  - apply handler_ok_serving.
  - apply started_serving.
Defined.

(** ** [Handler] before [Start] *)

(** X14. The handler serves the registry of the store, not a copy of its
    members: a handler obtained before [Start] shows, in a scrape after
    [Start], the names of the three plain instruments, and the name of the
    histogram exactly when it has a partition. *)
Theorem Handler_before_Start (ms : MetricsStore) (w : World)
    (h : promhttp.Handler) (w1 w2 : World) :
  store_ok ms w →
  Handler ms w = Ok h w1 →
  Start ms w1 = Ok tt w2 →
  ∃ rsp w3, ServeHTTP h w2 = Ok rsp w3
    ∧ "osm_k8s_api_event_count" ∈ names (Body rsp)
    ∧ "osm_proxy_connect_count" ∈ names (Body rsp)
    ∧ "osm_injector_injector_sidecar_count" ∈ names (Body rsp)
    ∧ ("osm_injector_injector_rq_time" ∈ names (Body rsp) ↔
       ∃ hv, heap w !! InjectorRqTime ms = Some (CHistogramVec hv)
             ∧ hv_children hv ≠ ∅).
Proof.
  intros Hok HH HS.
  destruct (Handler_spec _ _ _ _ Hok HH) as (Hok1 & Hh1 & Hfr & _).
  destruct (Start_started _ _ _ Hok1 HS) as (Hok2 & Hst2 & Hheap2).
  pose proof (handler_ok_heap ms h w1 w2 Hheap2 Hh1) as Hh2.
  destruct (scrape_names_started _ _ _ Hok2 Hh2 Hst2)
    as (rsp & w3 & HSv & N1 & N2 & N3 & N4).
  exists rsp, w3. split_and!; [done..|].
  rewrite N4, Hheap2. destruct Hok as [_ _ _ (k4 & E4 & _) _].
  pose proof (Hfr _ _ E4) as E4'.
  split; intros (hv & Hhv & Hne); exists hv; split; congruence.
Qed.

Lemma Handler_before_Start_witness :
  store_ok default_ms w_init
  ∧ Handler default_ms w_init = Ok handler_early w_early_serving
  ∧ Start default_ms w_early_serving = Ok tt w_early_started
  ∧ ∃ rsp w3, ServeHTTP handler_early w_early_started = Ok rsp w3
      ∧ "osm_k8s_api_event_count" ∈ names (Body rsp)
      ∧ "osm_proxy_connect_count" ∈ names (Body rsp)
      ∧ "osm_injector_injector_sidecar_count" ∈ names (Body rsp)
      ∧ ("osm_injector_injector_rq_time" ∈ names (Body rsp) ↔
         ∃ hv, heap w_init !! InjectorRqTime default_ms = Some (CHistogramVec hv)
               ∧ hv_children hv ≠ ∅).
Proof.
  assert (Handler default_ms w_init = Ok handler_early w_early_serving)
    as HH by (vm_compute; reflexivity).
  assert (Start default_ms w_early_serving = Ok tt w_early_started)
    as HS by (vm_compute; reflexivity).
  split; [apply store_ok_init|]. split; [exact HH|]. split; [exact HS|].
  apply (Handler_before_Start default_ms w_init handler_early
           w_early_serving w_early_started).
  - apply store_ok_init.
  - exact HH.
  - exact HS.
Defined.

(** ** [init] *)

Lemma fresh_insert_ne (hp : gmap loc Collector) (l : loc) (c : Collector) :
  fresh (dom (<[l := c]> hp)) ≠ l.
Proof.
  intros Heq. pose proof (is_fresh (dom (<[l := c]> hp))) as Hf.
  rewrite Heq in Hf. apply Hf. rewrite dom_insert_L.
  apply elem_of_union_l, elem_of_singleton. done.
Qed.

Lemma fresh_insert_None (hp : gmap loc Collector) (l : loc) (c : Collector) :
  hp !! fresh (dom (<[l := c]> hp)) = None.
Proof.
  pose proof (fresh_insert_ne hp l c) as Hne.
  pose proof (is_fresh (dom (<[l := c]> hp))) as Hf.
  apply not_elem_of_dom in Hf. by rewrite lookup_insert_ne in Hf.
Qed.

(** X15. [init] never fails and builds new objects only: from any heap it
    returns a constructed store whose four instruments and registry are
    objects that did not exist before, with the registry empty; every
    object that existed before is left as it was. *)
Theorem init_builds_fresh_store (w0 : World) :
  ∃ ms w, init w0 = Ok ms w
    ∧ store_ok ms w
    ∧ heap w0 !! K8sAPIEventCounter ms = None
    ∧ heap w0 !! ProxyConnectCount ms = None
    ∧ heap w0 !! InjectorSidecarCount ms = None
    ∧ heap w0 !! InjectorRqTime ms = None
    ∧ regs w0 !! registry ms = None
    ∧ regs w !! registry ms
      = Some {| collectorsByID := ∅; descIDs := ∅; dimHashesByName := ∅ |}
    ∧ (∀ l c, heap w0 !! l = Some c → heap w !! l = Some c)
    ∧ (∀ r reg, regs w0 !! r = Some reg → regs w !! r = Some reg).
Proof.
  destruct w0 as [h0 r0].
  unfold init, NewCounter, NewGauge, NewHistogramVec, NewRegistry,
    alloc, alloc_reg. munfold. cbn [heap regs].
  set (l1 := fresh (dom h0)).
  set (c1 := CCounter _).
  set (h1 := <[l1 := c1]> h0).
  set (l2 := fresh (dom h1)).
  set (c2 := CGauge _).
  set (h2 := <[l2 := c2]> h1).
  set (l3 := fresh (dom h2)).
  set (c3 := CCounter _).
  set (h3 := <[l3 := c3]> h2).
  set (l4 := fresh (dom h3)).
  set (c4 := CHistogramVec _).
  set (lr := fresh (dom r0)).
  assert (h0 !! l1 = None) as F1 by apply not_elem_of_dom, is_fresh.
  assert (h1 !! l2 = None) as F2 by apply not_elem_of_dom, is_fresh.
  assert (h2 !! l3 = None) as F3 by apply not_elem_of_dom, is_fresh.
  assert (h3 !! l4 = None) as F4 by apply not_elem_of_dom, is_fresh.
  assert (r0 !! lr = None) as Fr by apply not_elem_of_dom, is_fresh.
  assert (l2 ≠ l1) as N21 by apply fresh_insert_ne.
  assert (l3 ≠ l2) as N32 by apply fresh_insert_ne.
  assert (l4 ≠ l3) as N43 by apply fresh_insert_ne.
  assert (h1 !! l3 = None) as F31 by apply fresh_insert_None.
  assert (h2 !! l4 = None) as F42 by apply fresh_insert_None.
  assert (l3 ≠ l1) as N31.
  { intros Heq. rewrite Heq in F31. unfold h1 in F31.
    by rewrite lookup_insert_eq in F31. }
  assert (l4 ≠ l2) as N42.
  { intros Heq. rewrite Heq in F42. unfold h2 in F42.
    by rewrite lookup_insert_eq in F42. }
  assert (h1 !! l4 = None) as F41.
  { unfold h2 in F42. by rewrite lookup_insert_ne in F42. }
  assert (l4 ≠ l1) as N41.
  { intros Heq. rewrite Heq in F41. unfold h1 in F41.
    by rewrite lookup_insert_eq in F41. }
  assert (h0 !! l2 = None) as G2.
  { unfold h1 in F2. by rewrite lookup_insert_ne in F2. }
  assert (h0 !! l3 = None) as G3.
  { unfold h1 in F31. by rewrite lookup_insert_ne in F31. }
  assert (h0 !! l4 = None) as G4.
  { unfold h1 in F41. by rewrite lookup_insert_ne in F41. }
  eexists _, _. split; [reflexivity|]. cbn [K8sAPIEventCounter ProxyConnectCount
    InjectorSidecarCount InjectorRqTime registry heap regs].
  split_and!.
  - split; cbn [K8sAPIEventCounter ProxyConnectCount InjectorSidecarCount
                InjectorRqTime registry heap regs].
    + exists {| c_desc := k8s_desc; valInt := 0; valBits := 0 |}.
      split; [|reflexivity].
      unfold h3, h2, h1. rewrite !lookup_insert_ne by done. apply lookup_insert_eq.
    + exists {| g_desc := proxy_desc; g_valBits := 0 |}.
      split; [|reflexivity].
      unfold h3, h2. rewrite !lookup_insert_ne by done. apply lookup_insert_eq.
    + exists {| c_desc := sidecar_desc; valInt := 0; valBits := 0 |}.
      split; [|reflexivity].
      unfold h3. rewrite !lookup_insert_ne by done. apply lookup_insert_eq.
    + exists {| hv_desc := rqtime_desc;
                hv_upperBounds := InjectorRqTime_Buckets;
                hv_children := ∅ |}.
      split; [apply lookup_insert_eq|]. split_and!; [reflexivity..|].
      cbn [hv_children]. intros lvs [y Hy]. by rewrite lookup_empty in Hy.
    + exists {| collectorsByID := ∅; descIDs := ∅; dimHashesByName := ∅ |}.
      split; [apply lookup_insert_eq|].
      intros id l Hid. cbn [collectorsByID] in Hid. by rewrite lookup_empty in Hid.
  - done.
  - done.
  - done.
  - done.
  - done.
  - apply lookup_insert_eq.
  - intros l c Hl. unfold h3, h2, h1.
    rewrite !lookup_insert_ne; [done|intros Heq; rewrite <-Heq in Hl; congruence..].
  - intros r reg Hr. rewrite lookup_insert_ne; [done|]. intros <-. congruence.
Qed.
